(** * RefRef portal: membership governance, setup progress and reward step

    A shallow embedding of the decision logic of
    - [apps/portal/src/server/api/routers/project-members.ts]
      (the tRPC router [projectMembersRouter] and its helpers),
    - [apps/portal/src/app/(authenticated)/(core)/programs/[id]/page.tsx]
      (the aggregates [pendingSteps] and [allRequiredComplete]),
    - [.../programs/[id]/setup/_components/RewardStep.tsx] ([submitForm]).

    Handlers are functions in a state-and-error monad over a [World]: the
    rows of the relational store together with the log of the calls made to
    the identity provider ([auth.api]).  The provider is not part of the
    repository; it is a parameter of the development. *)

From Stdlib Require Import Ascii String List Bool Arith Lia ZArith QArith.
Import ListNotations.

#[local] Open Scope string_scope.
#[local] Open Scope list_scope.
#[local] Open Scope nat_scope.

(** JavaScript's [===] on strings. *)
Notation "a === b" := (String.eqb a b) (at level 70, no associativity).

(* ===================================================================== *)
(** ** Errors thrown by the handlers *)
(* ===================================================================== *)

(** The codes of [TRPCError] that the router uses. *)
Inductive Code : Type :=
| BAD_REQUEST
| FORBIDDEN
| NOT_FOUND.

(** [throw new TRPCError({code, message})] and the plain [throw new Error(message)]
    of [listInvitations]. *)
Inductive Error : Type :=
| TRPCError (code : Code) (message : string)
| PlainError (message : string).

Definition codeOf (e : Error) : option Code :=
  match e with
  | TRPCError c _ => Some c
  | PlainError _ => None
  end.

(* ===================================================================== *)
(** ** The relational store *)
(* ===================================================================== *)

(** Timestamps are opaque to the logic; they are only formatted for display. *)
Definition Date : Type := Z.

(** A row of [schema.projectUser].  The [role] column is a string. *)
Record ProjectUserRow : Type := mkProjectUser {
  pu_projectId : string;
  pu_userId : string;
  pu_role : string;
  pu_createdAt : Date
}.

(** A row of [schema.user] (the columns the router reads). *)
Record UserRow : Type := mkUser {
  u_id : string;
  u_name : option string;
  u_email : option string;
  u_image : option string
}.

(** A row of [schema.invitation] (the columns the router reads). *)
Record InvitationRow : Type := mkInvitation {
  inv_id : string;
  inv_projectId : string;
  inv_email : string;
  inv_role : option string;
  inv_status : string;
  inv_inviterId : string;
  inv_createdAt : Date;
  inv_expiresAt : Date
}.

Record Tables : Type := mkTables {
  projectUser : list ProjectUserRow;
  user : list UserRow;
  invitation : list InvitationRow
}.

(** [z.enum(["admin", "member", "owner"])]: the role of a request input after
    the framework has parsed it. *)
Inductive RoleInput : Type :=
| RAdmin
| RMember
| ROwner.

Definition roleString (r : RoleInput) : string :=
  match r with
  | RAdmin => "admin"
  | RMember => "member"
  | ROwner => "owner"
  end.

(* ===================================================================== *)
(** ** Calls to the identity provider *)
(* ===================================================================== *)

(** The bodies passed to [auth.api.*].  [createInvitation] receives
    [ctx.activeProjectId] unchecked in [resendInvitation], hence the option. *)
Inductive AuthCall : Type :=
| CreateInvitation (organizationId : option string) (email : string)
                   (role : RoleInput) (resend : bool)
| UpdateMemberRole (organizationId : string) (memberId : string)
                   (role : RoleInput)
| RemoveMember (organizationId : string) (memberIdOrEmail : string)
| CancelInvitation (invitationId : string)
| AcceptInvitation (invitationId : string).

(** The state a request runs against: the tables and the calls made to the
    provider so far, oldest first. *)
Record World : Type := mkWorld {
  tables : Tables;
  calls : list AuthCall
}.

(* ===================================================================== *)
(** ** The handler monad *)
(* ===================================================================== *)

Definition M (A : Type) : Type := World -> (Error + A) * World.

Definition ret {A : Type} (a : A) : M A := fun w => (inr a, w).

Definition throw {A : Type} (e : Error) : M A := fun w => (inl e, w).

Definition bind {A B : Type} (m : M A) (f : A -> M B) : M B :=
  fun w =>
    match m w with
    | (inl e, w') => (inl e, w')
    | (inr a, w') => f a w'
    end.

(** [await db.select()...]: a read of the tables. *)
Definition query {A : Type} (q : Tables -> A) : M A :=
  fun w => (inr (q (tables w)), w).

(** [await ctx.db.delete(...)]: a write to the tables by the router itself. *)
Definition dbWrite (f : Tables -> Tables) : M unit :=
  fun w => (inr tt, mkWorld (f (tables w)) (calls w)).

Declare Scope handler_scope.
Delimit Scope handler_scope with handler.
Notation "x <- m ;; k" := (bind m (fun x => k))
  (at level 61, m at next level, right associativity) : handler_scope.
Notation "m ;;; k" := (bind m (fun _ => k))
  (at level 61, right associativity) : handler_scope.
#[local] Open Scope handler_scope.

Definition trpcError {A : Type} (c : Code) (msg : string) : M A :=
  throw (TRPCError c msg).

(* ===================================================================== *)
(** ** Queries of [project-members.ts] *)
(* ===================================================================== *)

(** [db.select().from(projectUser).where(and(eq(projectId, p), eq(userId, u)))]
    destructured as [const [membership] = ...]: the first matching row. *)
Definition selectMembership (p u : string) (t : Tables) : option ProjectUserRow :=
  hd_error
    (filter (fun r => (pu_projectId r === p) && (pu_userId r === u))
            (projectUser t)).

Record MemberCounts : Type := mkCounts {
  total : nat;
  owners : nat;
  admins : nat
}.

(** [getProjectMemberCounts]: three [count()] queries over the same table. *)
Definition getProjectMemberCounts (projectId : string) (t : Tables) : MemberCounts :=
  {| total :=
       length (filter (fun r => pu_projectId r === projectId) (projectUser t));
     owners :=
       length (filter (fun r => (pu_projectId r === projectId) && (pu_role r === "owner"))
                      (projectUser t));
     admins :=
       length (filter (fun r => (pu_projectId r === projectId) && (pu_role r === "admin"))
                      (projectUser t)) |}.

(* ===================================================================== *)
(** ** Validation helpers *)
(* ===================================================================== *)

(** [validateRoleChange(db, projectId, userId, newRole, currentUserId)]. *)
Definition validateRoleChange
    (projectId userId newRole currentUserId : string) : M unit :=
  currentUserMembership <- query (selectMembership projectId currentUserId) ;;
  match currentUserMembership with
  | None => trpcError FORBIDDEN "You are not a member of this project"
  | Some currentUserMembership =>
    if pu_role currentUserMembership === "member" then
      trpcError FORBIDDEN "You don't have permission to change roles"
    else
      targetUserMembership <- query (selectMembership projectId userId) ;;
      match targetUserMembership with
      | None => trpcError NOT_FOUND "User is not a member of this project"
      | Some targetUserMembership =>
        counts <- query (getProjectMemberCounts projectId) ;;
        if (pu_role targetUserMembership === "owner")
           && (owners counts =? 1)
           && negb (newRole === "owner") then
          trpcError BAD_REQUEST
            "Cannot demote the last owner. Promote another member to owner first."
        else if (pu_role targetUserMembership === "admin")
                && (admins counts =? 1)
                && (owners counts =? 0)
                && (newRole === "member") then
          trpcError BAD_REQUEST
            "Cannot demote the last admin when there are no owners."
        else if (newRole === "owner")
                && negb (pu_role currentUserMembership === "owner") then
          trpcError FORBIDDEN "Only owners can promote members to owner role"
        else ret tt
      end
  end.

(** [validateMemberRemoval(db, projectId, userIdToRemove, currentUserId)]. *)
Definition validateMemberRemoval
    (projectId userIdToRemove currentUserId : string) : M unit :=
  currentUserMembership <- query (selectMembership projectId currentUserId) ;;
  match currentUserMembership with
  | None => trpcError FORBIDDEN "You are not a member of this project"
  | Some currentUserMembership =>
    if pu_role currentUserMembership === "member" then
      trpcError FORBIDDEN "You don't have permission to remove members"
    else
      targetUserMembership <- query (selectMembership projectId userIdToRemove) ;;
      match targetUserMembership with
      | None => trpcError NOT_FOUND "User is not a member of this project"
      | Some targetUserMembership =>
        counts <- query (getProjectMemberCounts projectId) ;;
        if (total counts =? 1) then
          trpcError BAD_REQUEST "Cannot remove the last member of the project"
        else if (pu_role targetUserMembership === "owner")
                && (owners counts =? 1) then
          trpcError BAD_REQUEST
            "Cannot remove the last owner. Promote another member to owner first."
        else if (pu_role targetUserMembership === "admin")
                && (admins counts =? 1)
                && (owners counts =? 0) then
          trpcError BAD_REQUEST
            "Cannot remove the last admin when there are no owners."
        else ret tt
      end
  end.

(* ===================================================================== *)
(** ** The router [projectMembersRouter] *)
(* ===================================================================== *)

(** The request context the framework hands to a procedure.  [ctx.db] is the
    [tables] component of the world and [ctx.headers] is passed to the
    provider untouched; neither is repeated here. *)
Record Ctx : Type := mkCtx {
  activeProjectId : option string;
  userId : option string;
  projectUserRole : option string
}.

(** JavaScript truthiness of an optional string: [undefined], [null] and the
    empty string are falsy.  [present o] is the string when [o] is truthy. *)
Definition present (o : option string) : option string :=
  match o with
  | Some s => if s === "" then None else Some s
  | None => None
  end.

(** [ctx.projectUserRole === r]. *)
Definition roleIs (ctx : Ctx) (r : string) : bool :=
  match projectUserRole ctx with
  | Some role => role === r
  | None => false
  end.

(** [{ success: true }]. *)
Record Success : Type := mkSuccess { success : bool }.

(** [{ id: invitation }], the provider's reply. *)
Record Invited : Type := mkInvited { id : string }.

Record MemberView : Type := mkMemberView {
  mv_id : string;
  mv_name : option string;
  mv_email : option string;
  mv_avatar : option string;
  mv_role : string;
  mv_joinedAt : string;
  mv_isCurrentUser : bool
}.

Record MemberList : Type := mkMemberList {
  members : list MemberView;
  counts : MemberCounts;
  currentUserId : option string;
  currentUserRole : option string
}.

Record InvitationView : Type := mkInvitationView {
  iv_id : string;
  iv_email : string;
  iv_role : string;
  iv_invitedBy : string;
  iv_invitedAt : string;
  iv_expiresAt : string;
  iv_status : string
}.

Section Router.

(** The identity provider behind [auth.api]: given a call and the current
    tables it answers with a reply (the created invitation for
    [createInvitation]; ignored by the router otherwise) and the tables as
    it leaves them.  It is taken to accept every call it receives: its own
    refusals are outside this development. *)
Variable auth : AuthCall -> Tables -> string * Tables.

(** [Date.prototype.toLocaleDateString("en-US", {...})]. *)
Variable toLocaleDateString : Date -> string.

(** The verdict of [z.string().email()], the check of the parsing library on
    the [email] field of an input. *)
Variable isEmail : string -> bool.

(** [await auth.api.<call>({ body, headers })]. *)
Definition callAuth (c : AuthCall) : M string :=
  fun w =>
    let (reply, t') := auth c (tables w) in
    (inr reply, mkWorld t' (calls w ++ [c])).

(** [listMembers]. *)
Definition listMembers (ctx : Ctx) : M MemberList :=
  match present (activeProjectId ctx) with
  | None => trpcError BAD_REQUEST "No active project"
  | Some activeProjectId =>
    rows <- query (fun t =>
      flat_map
        (fun pu =>
           map (fun u => (u, pu))
               (filter (fun u => pu_userId pu === u_id u) (user t)))
        (filter (fun pu => pu_projectId pu === activeProjectId)
                (projectUser t))) ;;
    counts <- query (getProjectMemberCounts activeProjectId) ;;
    ret {| members :=
             map (fun row : UserRow * ProjectUserRow =>
                    let (u, pu) := row in
                    {| mv_id := u_id u;
                       mv_name := u_name u;
                       mv_email := u_email u;
                       mv_avatar := u_image u;
                       mv_role := pu_role pu;
                       mv_joinedAt := toLocaleDateString (pu_createdAt pu);
                       mv_isCurrentUser :=
                         match userId ctx with
                         | Some uid => u_id u === uid
                         | None => false
                         end |})
                 rows;
           counts := counts;
           currentUserId := userId ctx;
           currentUserRole := projectUserRole ctx |}
  end.

(** [listInvitations].  The query yields an array, which is truthy even when
    empty, so the [if (!data) return []] of the source is never taken. *)
Definition listInvitations (ctx : Ctx) : M (list InvitationView) :=
  match present (activeProjectId ctx) with
  | None => throw (PlainError "No active project")
  | Some activeProjectId =>
    data <- query (fun t =>
      flat_map
        (fun inv =>
           map (fun u => (inv, u))
               (filter (fun u => u_id u === inv_inviterId inv) (user t)))
        (filter (fun inv => (inv_projectId inv === activeProjectId)
                            && (inv_status inv === "pending"))
                (invitation t))) ;;
    ret (map (fun row : InvitationRow * UserRow =>
                let (inv, u) := row in
                {| iv_id := inv_id inv;
                   iv_email := inv_email inv;
                   iv_role := match inv_role inv with
                              | Some r => r
                              | None => "member"
                              end;
                   iv_invitedBy := match u_name u, u_email u with
                                   | Some n, _ => n
                                   | None, Some e => e
                                   | None, None => "System"
                                   end;
                   iv_invitedAt := toLocaleDateString (inv_createdAt inv);
                   iv_expiresAt := toLocaleDateString (inv_expiresAt inv);
                   iv_status := inv_status inv |})
             data)
  end.

(** [invite({ email, role })].  Its input schema is
    [z.object({ email: z.string().email(), role })]: the framework parses the
    input before the handler runs and answers an [email] that is not one
    with BAD_REQUEST (the message is the parser's report).  The other
    procedures take their strings as they come. *)
Definition invite (ctx : Ctx) (email : string) (role : RoleInput) : M Invited :=
  if negb (isEmail email) then trpcError BAD_REQUEST "Invalid email"
  else
    match present (activeProjectId ctx), present (userId ctx) with
    | Some activeProjectId, Some _ =>
      if roleIs ctx "member" then
        trpcError FORBIDDEN
          "You don't have permission to invite members. Only owners and admins can invite."
      else if roleIs ctx "admin" && (roleString role === "owner") then
        trpcError FORBIDDEN "Only owners can invite other owners"
      else
        invitation <- callAuth (CreateInvitation (Some activeProjectId) email role false) ;;
        ret {| id := invitation |}
    | _, _ => trpcError BAD_REQUEST "No active project or user"
    end.

(** [changeRole({ userId, role })]. *)
Definition changeRole (ctx : Ctx) (targetUserId : string) (role : RoleInput)
  : M Success :=
  match present (activeProjectId ctx), present (userId ctx) with
  | Some activeProjectId, Some currentUserId =>
    validateRoleChange activeProjectId targetUserId (roleString role)
                       currentUserId ;;;
    callAuth (UpdateMemberRole activeProjectId targetUserId role) ;;;
    ret {| success := true |}
  | _, _ => trpcError BAD_REQUEST "No active project or user"
  end.

(** [remove({ userId })]. *)
Definition remove (ctx : Ctx) (targetUserId : string) : M Success :=
  match present (activeProjectId ctx), present (userId ctx) with
  | Some activeProjectId, Some currentUserId =>
    validateMemberRemoval activeProjectId targetUserId currentUserId ;;;
    callAuth (RemoveMember activeProjectId targetUserId) ;;;
    ret {| success := true |}
  | _, _ => trpcError BAD_REQUEST "No active project or user"
  end.

(** [cancelInvitation({ id })]. *)
Definition cancelInvitation (ctx : Ctx) (invitationId : string) : M Success :=
  if roleIs ctx "member" then
    trpcError FORBIDDEN
      "You don't have permission to cancel invitations. Only owners and admins can cancel invitations."
  else
    callAuth (CancelInvitation invitationId) ;;;
    dbWrite (fun t =>
      mkTables (projectUser t) (user t)
               (filter (fun inv => negb (inv_id inv === invitationId))
                       (invitation t))) ;;;
    ret {| success := true |}.

(** [resendInvitation({ email, role })]. *)
Definition resendInvitation (ctx : Ctx) (email : string) (role : RoleInput)
  : M Invited :=
  if roleIs ctx "member" then
    trpcError FORBIDDEN
      "You don't have permission to resend invitations. Only owners and admins can resend invitations."
  else if roleIs ctx "admin" && (roleString role === "owner") then
    trpcError FORBIDDEN "Only owners can invite other owners"
  else
    invitation <- callAuth (CreateInvitation (activeProjectId ctx) email role true) ;;
    ret {| id := invitation |}.

(** [acceptInvitation({ id })]. *)
Definition acceptInvitation (ctx : Ctx) (invitationId : string) : M Success :=
  callAuth (AcceptInvitation invitationId) ;;;
  ret {| success := true |}.

End Router.

(* ===================================================================== *)
(** ** A reference identity provider *)
(* ===================================================================== *)

(** The row of a membership after [updateMemberRole(org, member, role)]. *)
Definition setRole (org memberId role : string) (r : ProjectUserRow)
  : ProjectUserRow :=
  if (pu_projectId r === org) && (pu_userId r === memberId)
  then mkProjectUser (pu_projectId r) (pu_userId r) role (pu_createdAt r)
  else r.

(** What the router relies on when it reads the membership table again after
    a role update: the provider rewrites the role of the rows of that
    organization and member, and nothing else of the table. *)
Definition updatesMemberRole (auth : AuthCall -> Tables -> string * Tables)
  : Prop :=
  forall org memberId role t,
    projectUser (snd (auth (UpdateMemberRole org memberId role) t))
    = map (setRole org memberId (roleString role)) (projectUser t).

(** Modelled from the spec: the identity provider of section 6, which is an
    external collaborator ("creates/cancels/resends invitations,
    updates/removes membership role by organization+member id").  Only its
    effect on the membership table is modelled; invitations stay with the
    provider, and the reply to [createInvitation] is a placeholder. *)
Definition referenceAuth (c : AuthCall) (t : Tables) : string * Tables :=
  match c with
  | UpdateMemberRole org memberId role =>
    ("", mkTables (map (setRole org memberId (roleString role)) (projectUser t))
                  (user t) (invitation t))
  | RemoveMember org memberId =>
    ("", mkTables
           (filter (fun r => negb ((pu_projectId r === org)
                                   && (pu_userId r === memberId)))
                   (projectUser t))
           (user t) (invitation t))
  | CreateInvitation _ email _ _ => (email, t)
  | CancelInvitation _ => ("", t)
  | AcceptInvitation _ => ("", t)
  end.

(** The display format is irrelevant to the logic; dates print as nothing. *)
Definition referenceDateFormat (d : Date) : string := "".

(** [s] holds an [@] that is not its last character. *)
Fixpoint hasAt (s : string) : bool :=
  match s with
  | EmptyString => false
  | String c rest =>
    if Ascii.eqb c "@"%char then negb (rest === "") else hasAt rest
  end.

(** A stand-in for the email check of the parsing library, for the closed
    instances: text, an [@], text.  It is only ever asked about
    ["eve@acme.test"], which the library accepts, and about strings without
    [@], which it refuses. *)
Definition referenceIsEmail (s : string) : bool :=
  match s with
  | EmptyString => false
  | String c rest => negb (Ascii.eqb c "@"%char) && hasAt rest
  end.

(* ===================================================================== *)
(** ** Setup progress ([page.tsx]) *)
(* ===================================================================== *)

(** An entry of [program.setup.steps]. *)
Record SetupStep : Type := mkStep {
  step_id : string;
  step_title : string;
  isRequired : bool;
  isComplete : bool
}.

(** [program.setup.steps.filter(step => step.isRequired && !step.isComplete).length]. *)
Definition pendingSteps (steps : list SetupStep) : nat :=
  length (filter (fun step => isRequired step && negb (isComplete step)) steps).

(** [program.setup.steps.filter(step => step.isRequired).every(step => step.isComplete)]. *)
Definition allRequiredComplete (steps : list SetupStep) : bool :=
  forallb (fun step => isComplete step)
          (filter (fun step => isRequired step) steps).

(** The number of steps that are required and not complete, counted one step
    at a time: the reading of the specification, to compare [pendingSteps]
    with. *)
Fixpoint incompleteRequired (steps : list SetupStep) : nat :=
  match steps with
  | [] => 0
  | s :: rest =>
    match isRequired s, isComplete s with
    | true, false => S (incompleteRequired rest)
    | _, _ => incompleteRequired rest
    end
  end.

(** Modelled from the spec: [canProceedToStep] of [@/lib/program], which
    [page.tsx] imports and which is not among the sources.  Section 4.2:
    "navigating to a step is permitted only if all required steps preceding
    it are complete - a pure function of the step graph and completion
    flags".  The steps are walked in order up to the first one named
    [stepId]; a required, incomplete step met on the way refuses. *)
Fixpoint canProceedToStep (stepId : string) (config : list SetupStep) : bool :=
  match config with
  | [] => true
  | s :: rest =>
    if step_id s === stepId then true
    else if isRequired s && negb (isComplete s) then false
    else canProceedToStep stepId rest
  end.

(* ===================================================================== *)
(** ** The reward step ([RewardStep.tsx]) *)
(* ===================================================================== *)

Inductive ValueType : Type :=
| fixed
| percentage.

(** [ProgramTemplateRewardStepV2Type["referrerReward"]].  Numbers of the form
    are modelled as rationals; [submitForm] only copies them. *)
Record ReferrerReward : Type := mkReferrerReward {
  rr_enabled : bool;
  rr_valueType : ValueType;
  rr_value : Q;
  rr_currency : string
}.

(** [ProgramTemplateRewardStepV2Type["refereeReward"]]. *)
Record RefereeReward : Type := mkRefereeReward {
  re_enabled : bool;
  re_valueType : ValueType;
  re_value : Q;
  re_currency : string;
  re_minPurchaseAmount : option Q;
  re_validityDays : Q
}.

Record RewardStepValues : Type := mkValues {
  referrerReward : ReferrerReward;
  refereeReward : RefereeReward
}.

(** [DEFAULTS]. *)
Definition DEFAULTS : RewardStepValues :=
  {| referrerReward := mkReferrerReward true fixed 10 "USD";
     refereeReward := mkRefereeReward true percentage 20 "USD" (Some 50%Q) 30 |}.

(** The [type] tags of the two entries of a reward configuration. *)
Inductive RewardType : Type :=
| cash
| discount.

Record ReferrerConfig : Type := mkReferrerConfig {
  referrer_type : RewardType;
  referrer_valueType : ValueType;
  referrer_value : Q;
  referrer_currency : string
}.

Record RefereeConfig : Type := mkRefereeConfig {
  referee_type : RewardType;
  referee_valueType : ValueType;
  referee_value : Q;
  referee_currency : string;
  referee_minPurchaseAmount : option Q;
  referee_validityDays : Q
}.

(** [RewardConfigType]. *)
Record RewardConfig : Type := mkRewardConfig {
  referrer : ReferrerConfig;
  referee : RefereeConfig
}.

(** The part of [form.state] that [submitForm] reads. *)
Record FormState : Type := mkForm {
  values : RewardStepValues;
  isValidating : bool;
  isValid : bool
}.

Section RewardStep.

(** [form.validateAllFields("submit")] of the form library, which runs the
    [onSubmit] validator and leaves its verdict in the form state. *)
Variable validateAllFields : FormState -> FormState.

(** [submitForm]: [inl] is the thrown [Error], [inr None] is [undefined]. *)
Definition submitForm (form : FormState) : Error + option RewardConfig :=
  let form := validateAllFields form in
  if isValidating form || negb (isValid form) then
    inl (PlainError "Reward configuration is invalid. Please check the fields.")
  else
    let value := values form in
    let rewardConfig :=
      {| referrer :=
           {| referrer_type := cash;
              referrer_valueType := rr_valueType (referrerReward value);
              referrer_value := rr_value (referrerReward value);
              referrer_currency := rr_currency (referrerReward value) |};
         referee :=
           {| referee_type := discount;
              referee_valueType := re_valueType (refereeReward value);
              referee_value := re_value (refereeReward value);
              referee_currency := re_currency (refereeReward value);
              referee_minPurchaseAmount :=
                re_minPurchaseAmount (refereeReward value);
              referee_validityDays := re_validityDays (refereeReward value) |} |} in
    if rr_enabled (referrerReward value) || re_enabled (refereeReward value)
    then inr (Some rewardConfig)
    else inr None.

End RewardStep.

(** Modelled from the spec: the range checks of
    [programTemplateRewardStepSchemaV2] (package [@refref/types], not among
    the sources).  Section 4.3: "percentage bounded (1-100); fixed amount
    positive; currency in enumerated set; referee side additionally carries
    optional minimum purchase amount and a validity window (1-365 days).
    Submission fails validation if any enabled side has an out-of-range
    value".  [currencies] stands for [RewardCurrencies]. *)
Definition valueInRange (vt : ValueType) (v : Q) : bool :=
  match vt with
  | percentage => Qle_bool 1 v && Qle_bool v 100
  | fixed => negb (Qle_bool v 0)
  end.

(** Modelled from the spec: [programTemplateRewardStepSchemaV2] itself, by
    the same section 4.3: a side that is switched off is not range-checked,
    a side that is switched on must pass every check of its fields. *)
Definition programTemplateRewardStepSchemaV2
    (currencies : list string) (v : RewardStepValues) : bool :=
  let r := referrerReward v in
  let e := refereeReward v in
  (negb (rr_enabled r)
   || (valueInRange (rr_valueType r) (rr_value r)
       && existsb (fun c => c === rr_currency r) currencies))
  && (negb (re_enabled e)
      || (valueInRange (re_valueType e) (re_value e)
          && existsb (fun c => c === re_currency e) currencies
          && Qle_bool 1 (re_validityDays e)
          && Qle_bool (re_validityDays e) 365)).

(** [form.validateAllFields("submit")] on a form none of whose fields has a
    validator of its own, as in this component (the only validator is the
    form-level [onSubmit] schema): there is nothing to run, and the verdict
    the form carries is left as it was.  For the closed instances. *)
Definition noFieldValidators (form : FormState) : FormState := form.

(* ===================================================================== *)
(** ** Vocabulary of the properties *)
(* ===================================================================== *)

(** The role of user [u] in project [p], as the validation helpers read it. *)
Definition membershipRole (t : Tables) (p u : string) : option string :=
  option_map pu_role (selectMembership p u t).

(** [u] has a membership in [p] whose role is not ["member"]: the caller
    passes the permission guard of the validation helpers. *)
Definition isPrivileged (t : Tables) (p u : string) : bool :=
  match selectMembership p u t with
  | Some r => negb (pu_role r === "member")
  | None => false
  end.

(** The request comes with active project [p] and user [u]. *)
Definition resolved (ctx : Ctx) (p u : string) : Prop :=
  present (activeProjectId ctx) = Some p /\ present (userId ctx) = Some u.

(** The caller of [ctx] has role [role] in the active project, in the
    context and in the membership table alike. *)
Definition callerHasRole (ctx : Ctx) (w : World) (p u role : string) : Prop :=
  resolved ctx p u
  /\ projectUserRole ctx = Some role
  /\ membershipRole (tables w) p u = Some role.

(** The handler throws a [TRPCError] with code [c] and leaves the world as
    it found it: no table written, no provider call made. *)
Definition failsWith {A : Type} (c : Code) (m : M A) (w : World) : Prop :=
  exists msg, m w = (inl (TRPCError c msg), w).

(** The handler throws and leaves the world as it found it. *)
Definition rejected {A : Type} (m : M A) (w : World) : Prop :=
  exists e, m w = (inl e, w).

(** The world after the provider has served call [c]. *)
Definition afterCall (auth : AuthCall -> Tables -> string * Tables)
    (c : AuthCall) (w : World) : World :=
  mkWorld (snd (auth c (tables w))) (calls w ++ [c]).

(** Sample data for the closed instances below: project [acme] with owner
    [ann], then also admin [bob] and member [cid]. *)
Definition row (p u r : string) : ProjectUserRow := mkProjectUser p u r 0%Z.

Definition worldOf (rows : list ProjectUserRow) : World :=
  mkWorld (mkTables rows [] []) [].

Definition ctxOf (u role : string) : Ctx :=
  mkCtx (Some "acme") (Some u) (Some role).

Definition noContext : Ctx := mkCtx None None None.

Definition acmeTeam : World :=
  worldOf [row "acme" "ann" "owner"; row "acme" "bob" "admin";
           row "acme" "cid" "member"; row "other" "dan" "owner"].

Definition acmeAdminOnly : World :=
  worldOf [row "acme" "bob" "admin"; row "acme" "cid" "member"].

Definition acmeTwoAdmins : World :=
  worldOf [row "acme" "bob" "admin"; row "acme" "eve" "admin"].

Definition acmeSolo : World := worldOf [row "acme" "ann" "owner"].

Definition setupInProgress : list SetupStep :=
  [mkStep "design" "Design" true false; mkStep "rewards" "Rewards" true false;
   mkStep "notifications" "Notifications" false false;
   mkStep "installation" "Installation" true false].

(* ===================================================================== *)
(** ** The panels of the setup page ([page.tsx]) *)
(* ===================================================================== *)

(** The components the page mounts below the step list. *)
Inductive Panel : Type :=
| DesignConfig
| RewardStepPanel
| NotificationSetup
| Installation.

(** [step === id], for [step = searchParams?.get("step") ?? null]. *)
Definition stepIs (step : option string) (id : string) : bool :=
  match step with
  | Some s => s === id
  | None => false
  end.

(** What the page reads of [program], the data of
    [api.program.getById.useQuery]; it is absent while the query loads. *)
Record Program : Type := mkProgram {
  program_name : string;
  program_steps : list SetupStep
}.

(** The panels the page mounts.  While [program] is absent the page returns
    the loading view, which has none ([if (!program) return ...]).
    Otherwise the four [{cond && <Panel/>}] lines apply, in order: a panel
    is mounted when its condition holds; [!step] is true for [null] and for
    the empty string. *)
Definition renderedPanels (program : option Program) (step : option string)
  : list Panel :=
  match program with
  | None => []
  | Some _ =>
    (if stepIs step "design" then [DesignConfig] else [])
    ++ (if stepIs step "rewards" then [RewardStepPanel] else [])
    ++ (if stepIs step "notifications" then [NotificationSetup] else [])
    ++ (if stepIs step "installation"
           || match present step with None => true | Some _ => false end
        then [Installation] else [])
  end.

(* ===================================================================== *)
(** ** Assumptions on the store and on the provider *)
(* ===================================================================== *)

(** The key of a membership row. *)
Definition membershipKey (r : ProjectUserRow) : string * string :=
  (pu_projectId r, pu_userId r).

(** A user has at most one membership row per project. *)
Definition uniqueMemberships (t : Tables) : Prop :=
  NoDup (map membershipKey (projectUser t)).

(** User ids are unique in [schema.user]. *)
Definition uniqueUsers (t : Tables) : Prop :=
  NoDup (map u_id (user t)).

(** What [removeMember(org, member)] does to the membership table: the rows
    of that organization and member go, the others stay. *)
Definition removesMember (auth : AuthCall -> Tables -> string * Tables)
  : Prop :=
  forall org memberId t,
    projectUser (snd (auth (RemoveMember org memberId) t))
    = filter (fun r => negb ((pu_projectId r === org)
                             && (pu_userId r === memberId)))
             (projectUser t).

(** More sample data: [acme] with two owners, and a store with users and
    invitations. *)
Definition acmeTwoOwners : World :=
  worldOf [row "acme" "ann" "owner"; row "acme" "bob" "admin";
           row "acme" "fay" "owner"].

Definition acmeOffice : World :=
  mkWorld
    (mkTables
       [row "acme" "ann" "owner"; row "acme" "bob" "admin";
        row "acme" "gus" "member"]
       [mkUser "ann" (Some "Ann") (Some "ann@acme.test") None;
        mkUser "bob" None (Some "bob@acme.test") None]
       [mkInvitation "inv_1" "acme" "eve@acme.test" (Some "admin") "pending"
                     "ann" 0%Z 7%Z;
        mkInvitation "inv_2" "acme" "hal@acme.test" None "pending"
                     "bob" 1%Z 8%Z;
        mkInvitation "inv_3" "acme" "ivy@acme.test" (Some "member") "accepted"
                     "ann" 2%Z 9%Z])
    [].

(* ===================================================================== *)
(** * Properties *)
(* ===================================================================== *)

(** ** Facts about the queries *)

Lemma selectMembership_Some p u t r :
  selectMembership p u t = Some r ->
  In r (projectUser t) /\ pu_projectId r = p /\ pu_userId r = u.
Proof.
  unfold selectMembership. intros H.
  assert (Hin : In r (filter (fun r => (pu_projectId r === p) && (pu_userId r === u))
                             (projectUser t))).
  { destruct (filter _ _) as [|x l]; simpl in H; [discriminate|].
    injection H as ->. now left. }
  apply filter_In in Hin. destruct Hin as [Hin Hb].
  apply andb_true_iff in Hb. destruct Hb as [Hp Hu].
  apply String.eqb_eq in Hp, Hu. auto.
Qed.

Lemma membershipRole_Some t p u role :
  membershipRole t p u = Some role ->
  exists r, selectMembership p u t = Some r /\ pu_role r = role.
Proof.
  unfold membershipRole. destruct (selectMembership p u t) as [r|]; simpl.
  - intros [= <-]. now exists r.
  - discriminate.
Qed.

Lemma two_members_length {A : Type} (l : list A) (x y : A) :
  x <> y -> In x l -> In y l -> 2 <= length l.
Proof.
  destruct l as [|a [|b l]]; simpl; intros Hne Hx Hy; try lia.
  destruct Hx as [->|[]]. destruct Hy as [->|[]]. now elim Hne.
Qed.

Lemma filter_length_pos {A : Type} (f : A -> bool) (l : list A) (x : A) :
  In x l -> f x = true -> 1 <= length (filter f l).
Proof.
  intros Hin Hf.
  assert (H : In x (filter f l)) by (apply filter_In; auto).
  destruct (filter f l); simpl in *; [contradiction | lia].
Qed.

(** Owners and admins are disjoint groups of members. *)
Lemma counts_total_bound p t :
  owners (getProjectMemberCounts p t) + admins (getProjectMemberCounts p t)
  <= total (getProjectMemberCounts p t).
Proof.
  unfold getProjectMemberCounts; simpl.
  induction (projectUser t) as [|r l IH]; simpl; [lia|].
  destruct (pu_projectId r === p); simpl; [|exact IH].
  destruct (pu_role r === "owner") eqn:Ho; simpl.
  - apply String.eqb_eq in Ho. rewrite Ho. simpl. lia.
  - destruct (pu_role r === "admin"); simpl; lia.
Qed.

(** A role update of another member leaves a member's row as it was. *)
Lemma selectMembership_setRole_other p u other role t t' r :
  projectUser t' = map (setRole p other role) (projectUser t) ->
  u <> other ->
  selectMembership p u t = Some r ->
  selectMembership p u t' = Some r.
Proof.
  unfold selectMembership. intros -> Hne.
  induction (projectUser t) as [|x l IH]; simpl; [discriminate|].
  assert (Hkeys : pu_projectId (setRole p other role x) = pu_projectId x
                  /\ pu_userId (setRole p other role x) = pu_userId x).
  { unfold setRole. destruct (_ && _); auto. }
  destruct Hkeys as [-> ->].
  destruct ((pu_projectId x === p) && (pu_userId x === u)) eqn:Hm; simpl.
  - intros [= <-]. f_equal. unfold setRole.
    apply andb_true_iff in Hm. destruct Hm as [_ Hu].
    apply String.eqb_eq in Hu.
    destruct (pu_userId x === other) eqn:Ho.
    + apply String.eqb_eq in Ho. congruence.
    + now rewrite andb_false_r.
  - exact IH.
Qed.

(** Promoting a second member to owner leaves at least two owners. *)
Lemma owners_after_promotion p target second t t' rt rs :
  projectUser t' = map (setRole p second "owner") (projectUser t) ->
  target <> second ->
  selectMembership p target t = Some rt -> pu_role rt = "owner" ->
  selectMembership p second t = Some rs ->
  2 <= owners (getProjectMemberCounts p t').
Proof.
  intros Ht' Hne Hrt Hown Hrs.
  apply selectMembership_Some in Hrt. destruct Hrt as (Hint & Hpt & Hut).
  apply selectMembership_Some in Hrs. destruct Hrs as (Hins & Hps & Hus).
  unfold getProjectMemberCounts; simpl. rewrite Ht'.
  apply (two_members_length _ (setRole p second "owner" rt)
                              (setRole p second "owner" rs)).
  - unfold setRole. rewrite Hpt, Hut, Hps, Hus, !String.eqb_refl. simpl.
    destruct (target === second) eqn:E.
    + apply String.eqb_eq in E. contradiction.
    + intros Heq. apply (f_equal pu_userId) in Heq. simpl in Heq. congruence.
  - apply filter_In. split; [now apply in_map|].
    unfold setRole. rewrite Hpt, Hut, String.eqb_refl.
    destruct (target === second) eqn:E; simpl.
    + apply String.eqb_eq in E. contradiction.
    + now rewrite Hpt, Hown, String.eqb_refl.
  - apply filter_In. split; [now apply in_map|].
    unfold setRole. rewrite Hps, Hus, !String.eqb_refl. simpl.
    reflexivity.
Qed.

(** ** Running a handler *)

(** Reduce the monadic plumbing, and nothing of the queries. *)
Ltac run := cbv beta iota.

Ltac unfold_handler :=
  unfold failsWith, rejected, changeRole, remove, invite, cancelInvitation,
    resendInvitation, acceptInvitation, listMembers, listInvitations,
    validateRoleChange, validateMemberRemoval, callAuth, afterCall,
    bind, query, dbWrite, trpcError, throw, ret.

Lemma isPrivileged_true t p u :
  isPrivileged t p u = true ->
  exists r, selectMembership p u t = Some r /\ (pu_role r === "member") = false.
Proof.
  unfold isPrivileged. destruct (selectMembership p u t) as [r|]; [|discriminate].
  intros H. exists r. split; [reflexivity|]. now apply negb_true_iff.
Qed.

Lemma roleString_not_owner role :
  role <> ROwner -> (roleString role === "owner") = false.
Proof. destruct role; simpl; intros H; [reflexivity | reflexivity | now elim H]. Qed.

(** ** Membership governance *)

(** C1. In a project with exactly one owner, [changeRole] of that owner to
    another role and [remove] of that owner, issued by a caller who passes
    the permission guard, are rejected with BAD_REQUEST and change nothing.
    Once the owner has promoted a second member to owner, demoting the
    original owner goes through. *)
Theorem sole_owner_is_protected auth ctx w p u target :
  resolved ctx p u ->
  isPrivileged (tables w) p u = true ->
  membershipRole (tables w) p target = Some "owner" ->
  owners (getProjectMemberCounts p (tables w)) = 1 ->
  (forall role, role <> ROwner ->
     failsWith BAD_REQUEST (changeRole auth ctx target role) w)
  /\ failsWith BAD_REQUEST (remove auth ctx target) w
  /\ (updatesMemberRole auth ->
      membershipRole (tables w) p u = Some "owner" ->
      forall second,
        second <> target ->
        selectMembership p second (tables w) <> None ->
        let promoted := afterCall auth (UpdateMemberRole p second ROwner) w in
        changeRole auth ctx second ROwner w = (inr (mkSuccess true), promoted)
        /\ forall ctx' u' role,
             resolved ctx' p u' ->
             isPrivileged (tables promoted) p u' = true ->
             role <> ROwner ->
             changeRole auth ctx' target role promoted
             = (inr (mkSuccess true),
                afterCall auth (UpdateMemberRole p target role) promoted)).
Proof.
  intros [Hp Hu] Hpriv Htgt Hone.
  apply isPrivileged_true in Hpriv. destruct Hpriv as (rc & Hrc & Hnm).
  apply membershipRole_Some in Htgt. destruct Htgt as (rt & Hrt & Hro).
  split; [|split].
  - intros role Hrole. unfold_handler. rewrite Hp, Hu, Hrc, Hnm, Hrt. run.
    rewrite Hone, Hro, (roleString_not_owner role Hrole). simpl.
    eexists. reflexivity.
  - unfold_handler. rewrite Hp, Hu, Hrc, Hnm, Hrt. run.
    rewrite Hone, Hro.
    destruct (total (getProjectMemberCounts p (tables w)) =? 1);
      simpl; eexists; reflexivity.
  - intros Hauth Hcaller second Hne Hsec promoted.
    apply membershipRole_Some in Hcaller. destruct Hcaller as (rc' & Hrc' & Hco).
    rewrite Hrc in Hrc'. injection Hrc' as <-.
    destruct (selectMembership p second (tables w)) as [rs|] eqn:Hrs;
      [clear Hsec | now elim Hsec].
    split.
    + subst promoted. unfold_handler. rewrite Hp, Hu, Hrc, Hnm, Hrs. run.
      rewrite Hco. simpl. rewrite !andb_false_r. simpl.
      destruct (auth (UpdateMemberRole p second ROwner) (tables w)); reflexivity.
    + intros ctx' u' role [Hp' Hu'] Hpriv' Hrole.
      apply isPrivileged_true in Hpriv'. destruct Hpriv' as (rc2 & Hrc2 & Hnm2).
      assert (Htab : projectUser (tables promoted)
                     = map (setRole p second "owner") (projectUser (tables w)))
        by (apply (Hauth p second ROwner)).
      assert (Hrt' : selectMembership p target (tables promoted) = Some rt)
        by (eapply selectMembership_setRole_other; eauto).
      assert (Hown : 2 <= owners (getProjectMemberCounts p (tables promoted)))
        by (eapply owners_after_promotion; eauto).
      assert (E : (owners (getProjectMemberCounts p (tables promoted)) =? 1) = false)
        by (apply Nat.eqb_neq; lia).
      clearbody promoted. unfold_handler.
      rewrite Hp', Hu', Hrc2, Hnm2, Hrt'. run.
      rewrite Hro, (roleString_not_owner role Hrole), E. simpl.
      destruct (auth (UpdateMemberRole p target role) (tables promoted));
        reflexivity.
Qed.

Lemma referenceAuth_updatesMemberRole : updatesMemberRole referenceAuth.
Proof. intros org memberId role t. reflexivity. Qed.

(** [ann], the only owner of [acme], can neither step down nor leave; after
    she has made [cid] an owner, [cid] demotes her to member. *)
Lemma sole_owner_is_protected_witness :
  let ann := ctxOf "ann" "owner" in
  let promoted :=
    afterCall referenceAuth (UpdateMemberRole "acme" "cid" ROwner) acmeTeam in
  failsWith BAD_REQUEST (changeRole referenceAuth ann "ann" RAdmin) acmeTeam
  /\ failsWith BAD_REQUEST (remove referenceAuth ann "ann") acmeTeam
  /\ changeRole referenceAuth ann "cid" ROwner acmeTeam
     = (inr (mkSuccess true), promoted)
  /\ changeRole referenceAuth (ctxOf "cid" "owner") "ann" RMember promoted
     = (inr (mkSuccess true),
        afterCall referenceAuth (UpdateMemberRole "acme" "ann" RMember) promoted).
Proof.
  intros ann promoted.
  destruct (sole_owner_is_protected referenceAuth ann acmeTeam "acme" "ann" "ann")
    as (Hdemote & Hremove & Hthen).
  - split; reflexivity.
  - reflexivity.
  - reflexivity.
  - reflexivity.
  - destruct (Hthen referenceAuth_updatesMemberRole eq_refl "cid")
      as (Hpromote & Hafter).
    + discriminate.
    + discriminate.
    + split; [apply Hdemote; discriminate|].
      split; [exact Hremove|].
      split; [exact Hpromote|].
      apply (Hafter (ctxOf "cid" "owner") "cid" RMember).
      * split; reflexivity.
      * reflexivity.
      * discriminate.
Defined.

(** X19. Whoever calls, the sole owner is neither demoted nor removed: a
    caller who does not pass the permission guard is turned away before it. *)
Lemma sole_owner_untouched_by_any_caller auth ctx w p target :
  present (activeProjectId ctx) = Some p ->
  membershipRole (tables w) p target = Some "owner" ->
  owners (getProjectMemberCounts p (tables w)) = 1 ->
  (forall role, role <> ROwner -> rejected (changeRole auth ctx target role) w)
  /\ rejected (remove auth ctx target) w.
Proof.
  intros Hp Htgt Hone.
  apply membershipRole_Some in Htgt. destruct Htgt as (rt & Hrt & Hro).
  split; [intros role Hrole|]; unfold_handler; rewrite Hp;
    (destruct (present (userId ctx)) as [u|]; [|eexists; reflexivity]);
    run;
    (destruct (selectMembership p u (tables w)) as [rc|];
     [|eexists; reflexivity]);
    (destruct (pu_role rc === "member"); [eexists; reflexivity|]);
    rewrite Hrt; run; rewrite Hone, Hro.
  - rewrite (roleString_not_owner role Hrole). simpl. eexists; reflexivity.
  - destruct (total (getProjectMemberCounts p (tables w)) =? 1);
      simpl; eexists; reflexivity.
Qed.

(** C2. In a project without owner and with exactly one admin, [changeRole]
    of that admin to member and [remove] of that admin, issued by a caller
    who passes the permission guard, are rejected with BAD_REQUEST and change
    nothing; with a second admin, or with an owner, both go through. *)
Theorem sole_admin_without_owner_is_protected auth ctx w p u target :
  resolved ctx p u ->
  isPrivileged (tables w) p u = true ->
  membershipRole (tables w) p target = Some "admin" ->
  let c := getProjectMemberCounts p (tables w) in
  (owners c = 0 -> admins c = 1 ->
   failsWith BAD_REQUEST (changeRole auth ctx target RMember) w
   /\ failsWith BAD_REQUEST (remove auth ctx target) w)
  /\ (2 <= admins c \/ 1 <= owners c ->
      changeRole auth ctx target RMember w
      = (inr (mkSuccess true),
         afterCall auth (UpdateMemberRole p target RMember) w)
      /\ remove auth ctx target w
         = (inr (mkSuccess true), afterCall auth (RemoveMember p target) w)).
Proof.
  intros [Hp Hu] Hpriv Htgt c.
  apply isPrivileged_true in Hpriv. destruct Hpriv as (rc & Hrc & Hnm).
  apply membershipRole_Some in Htgt. destruct Htgt as (rt & Hrt & Hra).
  subst c. split.
  - intros Hzero Hone. split; unfold_handler;
      rewrite Hp, Hu, Hrc, Hnm, Hrt; run; rewrite Hzero, Hone, Hra.
    + simpl. eexists; reflexivity.
    + destruct (total (getProjectMemberCounts p (tables w)) =? 1);
        simpl; eexists; reflexivity.
  - intros Hmore.
    assert (Hadm : 1 <= admins (getProjectMemberCounts p (tables w))).
    { apply selectMembership_Some in Hrt. destruct Hrt as (Hin & Hpt & _).
      apply (filter_length_pos _ _ rt Hin).
      now rewrite Hpt, Hra, String.eqb_refl. }
    pose proof (counts_total_bound p (tables w)) as Hbound.
    assert (Hguard : (admins (getProjectMemberCounts p (tables w)) =? 1)
                     && (owners (getProjectMemberCounts p (tables w)) =? 0)
                     = false).
    { destruct Hmore as [H|H].
      - replace (admins _ =? 1) with false; [reflexivity|].
        symmetry. apply Nat.eqb_neq. lia.
      - replace (owners _ =? 0) with false; [apply andb_false_r|].
        symmetry. apply Nat.eqb_neq. lia. }
    assert (Htot : (total (getProjectMemberCounts p (tables w)) =? 1) = false)
      by (apply Nat.eqb_neq; lia).
    split; unfold_handler; rewrite Hp, Hu, Hrc, Hnm, Hrt; run; rewrite Hra.
    + rewrite <- !andb_assoc.
      rewrite (andb_assoc (admins _ =? 1)), Hguard. simpl.
      destruct (auth (UpdateMemberRole p target RMember) (tables w));
        reflexivity.
    + rewrite Htot, <- !andb_assoc, Hguard. simpl.
      destruct (auth (RemoveMember p target) (tables w)); reflexivity.
Qed.

Lemma sole_admin_without_owner_is_protected_witness :
  let bob := ctxOf "bob" "admin" in
  (failsWith BAD_REQUEST (changeRole referenceAuth bob "bob" RMember) acmeAdminOnly
   /\ failsWith BAD_REQUEST (remove referenceAuth bob "bob") acmeAdminOnly)
  /\ (changeRole referenceAuth bob "bob" RMember acmeTwoAdmins
      = (inr (mkSuccess true),
         afterCall referenceAuth (UpdateMemberRole "acme" "bob" RMember) acmeTwoAdmins)
      /\ remove referenceAuth bob "bob" acmeTwoAdmins
         = (inr (mkSuccess true),
            afterCall referenceAuth (RemoveMember "acme" "bob") acmeTwoAdmins))
  /\ (changeRole referenceAuth bob "bob" RMember acmeTeam
      = (inr (mkSuccess true),
         afterCall referenceAuth (UpdateMemberRole "acme" "bob" RMember) acmeTeam)
      /\ remove referenceAuth bob "bob" acmeTeam
         = (inr (mkSuccess true),
            afterCall referenceAuth (RemoveMember "acme" "bob") acmeTeam)).
Proof.
  intros bob. split; [|split].
  - apply (sole_admin_without_owner_is_protected
             referenceAuth bob acmeAdminOnly "acme" "bob" "bob");
      solve [split; reflexivity | reflexivity].
  - apply (sole_admin_without_owner_is_protected
             referenceAuth bob acmeTwoAdmins "acme" "bob" "bob");
      solve [split; reflexivity | reflexivity | left; vm_compute; lia].
  - apply (sole_admin_without_owner_is_protected
             referenceAuth bob acmeTeam "acme" "bob" "bob");
      solve [split; reflexivity | reflexivity | right; vm_compute; lia].
Defined.

(** C3. In a project with a single member, [remove] of that member fails and
    changes nothing, whoever calls and whatever the roles: with BAD_REQUEST
    for a caller who passes the permission guard, with FORBIDDEN or
    BAD_REQUEST otherwise. *)
Theorem last_member_cannot_be_removed auth ctx w p target :
  present (activeProjectId ctx) = Some p ->
  total (getProjectMemberCounts p (tables w)) = 1 ->
  selectMembership p target (tables w) <> None ->
  exists e,
    remove auth ctx target w = (inl e, w)
    /\ (codeOf e = Some BAD_REQUEST \/ codeOf e = Some FORBIDDEN)
    /\ (forall u, present (userId ctx) = Some u ->
                  isPrivileged (tables w) p u = true ->
                  e = TRPCError BAD_REQUEST
                        "Cannot remove the last member of the project").
Proof.
  intros Hp Hone Htgt. unfold_handler. rewrite Hp.
  destruct (present (userId ctx)) as [u|].
  - run. unfold isPrivileged.
    destruct (selectMembership p u (tables w)) as [rc|] eqn:Hrc.
    + destruct (pu_role rc === "member") eqn:Hm.
      * eexists. split; [reflexivity|]. split; [now right|].
        intros u' [= <-]. rewrite Hrc, Hm. discriminate.
      * destruct (selectMembership p target (tables w)) as [rt|];
          [|now elim Htgt].
        run. rewrite Hone. simpl.
        eexists. split; [reflexivity|]. split; [now left|]. reflexivity.
    + eexists. split; [reflexivity|]. split; [now right|].
      intros u' [= <-]. rewrite Hrc. discriminate.
  - eexists. split; [reflexivity|]. split; [now left|]. discriminate.
Qed.

Lemma last_member_cannot_be_removed_witness :
  exists e,
    remove referenceAuth (ctxOf "ann" "owner") "ann" acmeSolo = (inl e, acmeSolo)
    /\ (codeOf e = Some BAD_REQUEST \/ codeOf e = Some FORBIDDEN)
    /\ (forall u, present (userId (ctxOf "ann" "owner")) = Some u ->
                  isPrivileged (tables acmeSolo) "acme" u = true ->
                  e = TRPCError BAD_REQUEST
                        "Cannot remove the last member of the project").
Proof.
  apply (last_member_cannot_be_removed
           referenceAuth (ctxOf "ann" "owner") acmeSolo "acme" "ann").
  - reflexivity.
  - reflexivity.
  - discriminate.
Defined.

(** What the parser does to [invite]: an [email] that is not one is
    answered with BAD_REQUEST, whoever calls, and nothing happens. *)
Lemma invite_malformed_email auth isEmail ctx email role w :
  isEmail email = false ->
  invite auth isEmail ctx email role w
  = (inl (TRPCError BAD_REQUEST "Invalid email"), w).
Proof. intros H. unfold invite. now rewrite H. Qed.

(** C4, the input that refutes it: [cid], a member of [acme], invites with
    an [email] that is not one.  The parser answers BAD_REQUEST before the
    handler has looked at the role, so the answer is not FORBIDDEN. *)
Lemma member_invite_malformed_email :
  callerHasRole (ctxOf "cid" "member") acmeTeam "acme" "cid" "member"
  /\ referenceIsEmail "not-an-email" = false
  /\ invite referenceAuth referenceIsEmail (ctxOf "cid" "member")
            "not-an-email" RMember acmeTeam
     = (inl (TRPCError BAD_REQUEST "Invalid email"), acmeTeam)
  /\ ~ failsWith FORBIDDEN
        (invite referenceAuth referenceIsEmail (ctxOf "cid" "member")
                "not-an-email" RMember) acmeTeam.
Proof.
  split; [split; [split; reflexivity | split; reflexivity]|].
  split; [reflexivity|]. split; [reflexivity|].
  intros [msg H]. vm_compute in H. discriminate.
Qed.

(** C4, as the code has it. A caller whose role in the active project is
    member gets FORBIDDEN from [changeRole], [remove], [cancelInvitation]
    and [resendInvitation] for every input, and from [invite] for every
    input whose email passes the parser; an [invite] whose email does not
    is answered with BAD_REQUEST.  In each case the world stays as it
    was. *)
Theorem member_caller_is_forbidden auth isEmail ctx w p u :
  callerHasRole ctx w p u "member" ->
  (forall email role,
     isEmail email = true ->
     failsWith FORBIDDEN (invite auth isEmail ctx email role) w)
  /\ (forall email role,
        isEmail email = false ->
        failsWith BAD_REQUEST (invite auth isEmail ctx email role) w)
  /\ (forall target role, failsWith FORBIDDEN (changeRole auth ctx target role) w)
  /\ (forall target, failsWith FORBIDDEN (remove auth ctx target) w)
  /\ (forall invitationId,
        failsWith FORBIDDEN (cancelInvitation auth ctx invitationId) w)
  /\ (forall email role,
        failsWith FORBIDDEN (resendInvitation auth ctx email role) w).
Proof.
  intros ([Hp Hu] & Hctx & Hdb).
  apply membershipRole_Some in Hdb. destruct Hdb as (rc & Hrc & Hrole).
  split; [|split].
  - intros email role Hok. unfold_handler; unfold roleIs.
    rewrite Hok, Hp, Hu, Hctx. simpl. eexists; reflexivity.
  - intros email role Hbad. exists "Invalid email".
    now apply invite_malformed_email.
  - repeat split; intros; unfold_handler; unfold roleIs;
      rewrite ?Hp, ?Hu, ?Hctx, ?Hrc; run; rewrite ?Hrole; simpl;
      eexists; reflexivity.
Qed.

Lemma member_caller_is_forbidden_witness :
  let cid := ctxOf "cid" "member" in
  failsWith FORBIDDEN
    (invite referenceAuth referenceIsEmail cid "eve@acme.test" RMember) acmeTeam
  /\ failsWith BAD_REQUEST
       (invite referenceAuth referenceIsEmail cid "not-an-email" RMember) acmeTeam
  /\ failsWith FORBIDDEN (changeRole referenceAuth cid "bob" RMember) acmeTeam
  /\ failsWith FORBIDDEN (remove referenceAuth cid "bob") acmeTeam
  /\ failsWith FORBIDDEN (cancelInvitation referenceAuth cid "inv_1") acmeTeam
  /\ failsWith FORBIDDEN
       (resendInvitation referenceAuth cid "eve@acme.test" RMember) acmeTeam.
Proof.
  intros cid.
  destruct (member_caller_is_forbidden
              referenceAuth referenceIsEmail cid acmeTeam "acme" "cid")
    as (H1 & H1' & H2 & H3 & H4 & H5).
  - split; [split; reflexivity | split; reflexivity].
  - repeat split;
      [apply H1; reflexivity | apply H1'; reflexivity
       | apply H2 | apply H3 | apply H4 | apply H5].
Defined.

(** C5. A caller whose role is admin gets FORBIDDEN from [invite] with role
    owner (for an email that passes the parser) and from [changeRole] to
    owner of a member of the project; for a caller whose role is owner both
    go through: the invitation is created, the role of the target is
    updated.  Each half stands on its own: the admin half needs no owner in
    the project, the owner half no admin. *)
Theorem only_owners_grant_owner auth isEmail w p :
  (forall ctx u,
     callerHasRole ctx w p u "admin" ->
     (forall email,
        isEmail email = true ->
        failsWith FORBIDDEN (invite auth isEmail ctx email ROwner) w)
     /\ (forall target,
           selectMembership p target (tables w) <> None ->
           failsWith FORBIDDEN (changeRole auth ctx target ROwner) w))
  /\ (forall ctx u,
        callerHasRole ctx w p u "owner" ->
        (forall email,
           isEmail email = true ->
           let c := CreateInvitation (Some p) email ROwner false in
           invite auth isEmail ctx email ROwner w
           = (inr (mkInvited (fst (auth c (tables w)))), afterCall auth c w))
        /\ (forall target,
              selectMembership p target (tables w) <> None ->
              changeRole auth ctx target ROwner w
              = (inr (mkSuccess true),
                 afterCall auth (UpdateMemberRole p target ROwner) w))).
Proof.
  split.
  - intros ctx u ([Hp Hu] & Hctx & Hdb).
    apply membershipRole_Some in Hdb. destruct Hdb as (rc & Hrc & Hrole).
    split.
    + intros email Hok. unfold_handler; unfold roleIs.
      rewrite Hok, Hp, Hu, Hctx. simpl. eexists; reflexivity.
    + intros target Htgt. unfold_handler.
      rewrite Hp, Hu, Hrc. run. rewrite Hrole.
      change ("admin" === "member") with false. run.
      destruct (selectMembership p target (tables w)) as [rt|]; [|now elim Htgt].
      simpl. rewrite !andb_false_r. simpl. eexists; reflexivity.
  - intros ctx u ([Hp Hu] & Hctx & Hdb).
    apply membershipRole_Some in Hdb. destruct Hdb as (rc & Hrc & Hrole).
    split.
    + intros email Hok c. subst c. unfold_handler; unfold roleIs.
      rewrite Hok, Hp, Hu, Hctx. simpl.
      destruct (auth (CreateInvitation (Some p) email ROwner false) (tables w));
        reflexivity.
    + intros target Htgt. unfold_handler.
      rewrite Hp, Hu, Hrc. run. rewrite Hrole.
      change ("owner" === "member") with false. run.
      destruct (selectMembership p target (tables w)) as [rt|]; [|now elim Htgt].
      simpl. rewrite !andb_false_r. simpl.
      destruct (auth (UpdateMemberRole p target ROwner) (tables w)); reflexivity.
Qed.

(** Admin [bob] is refused, in [acme] with its owner and in a project that
    has no owner at all; owner [ann] goes through. *)
Lemma only_owners_grant_owner_witness :
  let bob := ctxOf "bob" "admin" in
  let ann := ctxOf "ann" "owner" in
  let invitation := CreateInvitation (Some "acme") "eve@acme.test" ROwner false in
  (failsWith FORBIDDEN
     (invite referenceAuth referenceIsEmail bob "eve@acme.test" ROwner) acmeTeam
   /\ failsWith FORBIDDEN (changeRole referenceAuth bob "cid" ROwner) acmeTeam)
  /\ (failsWith FORBIDDEN
        (invite referenceAuth referenceIsEmail bob "eve@acme.test" ROwner)
        acmeAdminOnly
      /\ failsWith FORBIDDEN (changeRole referenceAuth bob "cid" ROwner)
           acmeAdminOnly)
  /\ invite referenceAuth referenceIsEmail ann "eve@acme.test" ROwner acmeTeam
     = (inr (mkInvited "eve@acme.test"), afterCall referenceAuth invitation acmeTeam)
  /\ changeRole referenceAuth ann "cid" ROwner acmeTeam
     = (inr (mkSuccess true),
        afterCall referenceAuth (UpdateMemberRole "acme" "cid" ROwner) acmeTeam).
Proof.
  intros bob ann invitation.
  destruct (only_owners_grant_owner referenceAuth referenceIsEmail acmeTeam "acme")
    as (Hadmin & Howner).
  destruct (only_owners_grant_owner
              referenceAuth referenceIsEmail acmeAdminOnly "acme")
    as (Hadmin' & _).
  destruct (Hadmin bob "bob") as (H1 & H2);
    [split; [split; reflexivity | split; reflexivity]|].
  destruct (Hadmin' bob "bob") as (H1' & H2');
    [split; [split; reflexivity | split; reflexivity]|].
  destruct (Howner ann "ann") as (H3 & H4);
    [split; [split; reflexivity | split; reflexivity]|].
  split; [split; [apply H1; reflexivity | apply H2; discriminate]|].
  split; [split; [apply H1'; reflexivity | apply H2'; discriminate]|].
  split; [apply (H3 "eve@acme.test"); reflexivity | apply H4; discriminate].
Defined.

(** An admin's [changeRole] to owner of somebody who is not a member of the
    project fails too, with NOT_FOUND: the target is looked up before the
    owner-only guard. *)
Lemma admin_promotes_stranger_not_found auth ctx w p u target :
  callerHasRole ctx w p u "admin" ->
  selectMembership p target (tables w) = None ->
  failsWith NOT_FOUND (changeRole auth ctx target ROwner) w.
Proof.
  intros ([Hp Hu] & _ & Hdb) Htgt.
  apply membershipRole_Some in Hdb. destruct Hdb as (rc & Hrc & Hrole).
  unfold_handler. rewrite Hp, Hu, Hrc. run. rewrite Hrole.
  change ("admin" === "member") with false. run. rewrite Htgt.
  eexists; reflexivity.
Qed.

(** C6, the operation that refutes it: [acceptInvitation] checks nothing.
    Without active project, user or role it calls the provider and reports
    success. *)
Lemma acceptInvitation_ignores_missing_context :
  present (activeProjectId noContext) = None
  /\ present (userId noContext) = None
  /\ projectUserRole noContext = None
  /\ acceptInvitation referenceAuth noContext "inv_1" (worldOf [])
     = (inr (mkSuccess true),
        mkWorld (mkTables [] [] []) [AcceptInvitation "inv_1"])
  /\ ~ rejected (acceptInvitation referenceAuth noContext "inv_1") (worldOf []).
Proof.
  repeat split; try reflexivity.
  intros [e He]. vm_compute in He. discriminate.
Qed.

(** X20. [cancelInvitation] and [resendInvitation] do not ask for an active
    project or a user: a request whose role is neither ["member"] nor
    ["admin"], or is unresolved, reaches the provider in any case. *)
Lemma invitation_management_without_context auth ctx w invitationId email role :
  roleIs ctx "member" = false ->
  roleIs ctx "admin" = false ->
  calls (snd (cancelInvitation auth ctx invitationId w))
  = calls w ++ [CancelInvitation invitationId]
  /\ calls (snd (resendInvitation auth ctx email role w))
     = calls w ++ [CreateInvitation (activeProjectId ctx) email role true].
Proof.
  intros Hm Ha. unfold_handler. rewrite Hm, Ha. simpl.
  destruct (auth (CancelInvitation invitationId) (tables w)).
  destruct (auth (CreateInvitation (activeProjectId ctx) email role true) (tables w)).
  split; reflexivity.
Qed.

(** C6, as the code has it. [invite], [changeRole] and [remove] fail with
    BAD_REQUEST when the active project or the user is missing, and
    [listMembers] when the active project is missing; [listInvitations] fails
    then as well; [changeRole] and [remove] fail with FORBIDDEN when the
    caller has no membership in the active project.  In each case the world
    stays as it was.  [acceptInvitation] has no guard: it always calls the
    provider and reports success. *)
Theorem context_is_checked_where_guarded auth toLocaleDateString isEmail ctx w :
  (present (activeProjectId ctx) = None \/ present (userId ctx) = None ->
   (forall email role,
      failsWith BAD_REQUEST (invite auth isEmail ctx email role) w)
   /\ (forall target role,
         failsWith BAD_REQUEST (changeRole auth ctx target role) w)
   /\ (forall target, failsWith BAD_REQUEST (remove auth ctx target) w))
  /\ (present (activeProjectId ctx) = None ->
      failsWith BAD_REQUEST (listMembers toLocaleDateString ctx) w
      /\ rejected (listInvitations toLocaleDateString ctx) w)
  /\ (forall p u,
        resolved ctx p u ->
        selectMembership p u (tables w) = None ->
        (forall target role,
           failsWith FORBIDDEN (changeRole auth ctx target role) w)
        /\ (forall target, failsWith FORBIDDEN (remove auth ctx target) w))
  /\ (forall invitationId,
        acceptInvitation auth ctx invitationId w
        = (inr (mkSuccess true),
           afterCall auth (AcceptInvitation invitationId) w)).
Proof.
  split; [|split; [|split]].
  - intros Hmiss.
    repeat split; intros; unfold_handler;
      try (destruct (isEmail email); simpl; [|eexists; reflexivity]);
      (destruct Hmiss as [H|H]; rewrite H;
       [|destruct (present (activeProjectId ctx))]); eexists; reflexivity.
  - intros H. split; unfold_handler; rewrite H; eexists; reflexivity.
  - intros p u [Hp Hu] Hnone.
    split; intros; unfold_handler; rewrite Hp, Hu, Hnone;
      eexists; reflexivity.
  - intros invitationId. unfold_handler.
    destruct (auth (AcceptInvitation invitationId) (tables w)); reflexivity.
Qed.

Lemma context_is_checked_where_guarded_witness :
  let noUser := mkCtx (Some "acme") None None in
  let stranger := ctxOf "zed" "admin" in
  (failsWith BAD_REQUEST
     (invite referenceAuth referenceIsEmail noContext "eve@acme.test" RMember)
     acmeTeam
   /\ failsWith BAD_REQUEST (changeRole referenceAuth noUser "bob" RMember) acmeTeam
   /\ failsWith BAD_REQUEST (remove referenceAuth noContext "bob") acmeTeam)
  /\ (failsWith BAD_REQUEST (listMembers referenceDateFormat noContext) acmeTeam
      /\ rejected (listInvitations referenceDateFormat noContext) acmeTeam)
  /\ (failsWith FORBIDDEN (changeRole referenceAuth stranger "bob" RMember) acmeTeam
      /\ failsWith FORBIDDEN (remove referenceAuth stranger "bob") acmeTeam).
Proof.
  intros noUser stranger.
  destruct (context_is_checked_where_guarded
              referenceAuth referenceDateFormat referenceIsEmail noContext acmeTeam)
    as (Hctx & Hlist & _ & _).
  destruct (context_is_checked_where_guarded
              referenceAuth referenceDateFormat referenceIsEmail noUser acmeTeam)
    as (Huser & _ & _ & _).
  destruct (context_is_checked_where_guarded
              referenceAuth referenceDateFormat referenceIsEmail stranger acmeTeam)
    as (_ & _ & Hstranger & _).
  destruct (Hctx (or_introl eq_refl)) as (H1 & _ & H3).
  destruct (Huser (or_intror eq_refl)) as (_ & H2 & _).
  destruct (Hstranger "acme" "zed" (conj eq_refl eq_refl) eq_refl) as (H4 & H5).
  repeat split;
    [apply H1 | apply H2 | apply H3 | apply Hlist; reflexivity
     | apply Hlist; reflexivity | apply H4 | apply H5].
Defined.

(** X21. [invite] does not look at whether a role was resolved either: with
    an active project and a user, a request without role whose email passes
    the parser creates the invitation. *)
Lemma invite_with_unresolved_role auth isEmail ctx w p u email role :
  isEmail email = true ->
  resolved ctx p u ->
  projectUserRole ctx = None ->
  calls (snd (invite auth isEmail ctx email role w))
  = calls w ++ [CreateInvitation (Some p) email role false].
Proof.
  intros Hok [Hp Hu] Hrole. unfold_handler; unfold roleIs.
  rewrite Hok, Hp, Hu, Hrole. simpl.
  destruct (auth (CreateInvitation (Some p) email role false) (tables w)).
  reflexivity.
Qed.

(** ** Setup progress *)

Lemma pendingSteps_cons s steps :
  pendingSteps (s :: steps)
  = (if isRequired s && negb (isComplete s) then 1 else 0) + pendingSteps steps.
Proof.
  unfold pendingSteps. simpl.
  destruct (isRequired s && negb (isComplete s)); reflexivity.
Qed.

(** C7. [pendingSteps] is the number of steps that are required and not
    complete, and [allRequiredComplete] holds exactly when every required
    step is complete. *)
Theorem setup_aggregates steps :
  pendingSteps steps = incompleteRequired steps
  /\ (allRequiredComplete steps = true
      <-> forall s, In s steps -> isRequired s = true -> isComplete s = true).
Proof.
  split.
  - induction steps as [|s steps IH]; [reflexivity|].
    rewrite pendingSteps_cons, IH. simpl.
    destruct (isRequired s), (isComplete s); reflexivity.
  - unfold allRequiredComplete. rewrite forallb_forall. split.
    + intros H s Hin Hreq. apply H. apply filter_In. auto.
    + intros H s Hin. apply filter_In in Hin. destruct Hin. auto.
Qed.

(** The two aggregates agree: nothing is pending exactly when all required
    steps are complete. *)
Lemma allRequiredComplete_iff_none_pending steps :
  allRequiredComplete steps = true <-> pendingSteps steps = 0.
Proof.
  induction steps as [|s steps IH]; [now split|].
  rewrite pendingSteps_cons. unfold allRequiredComplete in *. simpl.
  destruct (isRequired s); simpl; [|exact IH].
  destruct (isComplete s); simpl; [exact IH|].
  split; [discriminate | lia].
Qed.

(** C8. With [stepId] the first step of that name in the configuration,
    [canProceedToStep] allows it exactly when every required step before it
    is complete; the steps after it, and the step itself, do not matter.  So
    ["rewards"] is refused while a required ["design"] step before it is
    incomplete, and allowed once the required steps before it are complete. *)
Theorem canProceedToStep_gate stepId pre s post :
  step_id s = stepId ->
  (forall x, In x pre -> step_id x <> stepId) ->
  (canProceedToStep stepId (pre ++ s :: post) = true
   <-> forall x, In x pre -> isRequired x = true -> isComplete x = true)
  /\ (forall design,
        In design pre -> step_id design = "design" ->
        isRequired design = true -> isComplete design = false ->
        canProceedToStep stepId (pre ++ s :: post) = false)
  /\ canProceedToStep stepId (pre ++ s :: post)
     = canProceedToStep stepId (pre ++ [s]).
Proof.
  intros Hs Hpre.
  assert (Hiff : forall tail,
             canProceedToStep stepId (pre ++ s :: tail) = true
             <-> forall x, In x pre -> isRequired x = true -> isComplete x = true).
  { intros tail. induction pre as [|a pre IH]; simpl.
    - rewrite Hs, String.eqb_refl. split; [intros _ x [] | reflexivity].
    - destruct (step_id a === stepId) eqn:Ea.
      + apply String.eqb_eq in Ea. exfalso. apply (Hpre a); simpl; auto.
      + destruct (isRequired a) eqn:Hr, (isComplete a) eqn:Hc; simpl.
        * rewrite IH by (intros x Hx; apply Hpre; simpl; auto).
          split; [intros H x [<-|Hx]; auto | intros H x Hx; apply H; auto].
        * split; [discriminate|]. intros H.
          specialize (H a (or_introl eq_refl) Hr). congruence.
        * rewrite IH by (intros x Hx; apply Hpre; simpl; auto).
          split; [intros H x [<-|Hx]; auto | intros H x Hx; apply H; auto].
        * rewrite IH by (intros x Hx; apply Hpre; simpl; auto).
          split; [intros H x [<-|Hx] | intros H x Hx; apply H]; auto.
          congruence. }
  split; [apply Hiff|]. split.
  - intros design Hin _ Hreq Hinc.
    apply not_true_is_false. intros H.
    pose proof (proj1 (Hiff post) H design Hin Hreq) as Hc. congruence.
  - destruct (canProceedToStep stepId (pre ++ [s])) eqn:E.
    + apply (Hiff post). exact (proj1 (Hiff []) E).
    + apply not_true_is_false. intros H.
      pose proof (proj2 (Hiff []) (proj1 (Hiff post) H)) as Hc. congruence.
Qed.

Lemma canProceedToStep_gate_witness :
  let design := mkStep "design" "Design" true false in
  let rewards := mkStep "rewards" "Rewards" true false in
  let rest := [mkStep "notifications" "Notifications" false false;
               mkStep "installation" "Installation" true false] in
  canProceedToStep "rewards" setupInProgress = false
  /\ canProceedToStep "rewards"
       ([mkStep "design" "Design" true true] ++ rewards :: rest) = true.
Proof.
  intros design rewards rest. split.
  - destruct (canProceedToStep_gate "rewards" [design] rewards rest eq_refl)
      as (_ & Hrefuse & _).
    + intros x [<-|[]]. discriminate.
    + apply (Hrefuse design); [now left | reflexivity | reflexivity | reflexivity].
  - destruct (canProceedToStep_gate
                "rewards" [mkStep "design" "Design" true true] rewards rest eq_refl)
      as (Hiff & _ & _).
    + intros x [<-|[]]. discriminate.
    + apply Hiff. intros x [<-|[]] _. reflexivity.
Defined.

(** ** The reward step *)

(** C9. When the validated form has both sides disabled, [submitForm]
    returns [undefined]: no configuration at all, rather than one with empty
    or zero entries. *)
Theorem submitForm_both_disabled validateAllFields form :
  let validated := validateAllFields form in
  isValidating validated = false ->
  isValid validated = true ->
  rr_enabled (referrerReward (values validated)) = false ->
  re_enabled (refereeReward (values validated)) = false ->
  submitForm validateAllFields form = inr None
  /\ forall config, submitForm validateAllFields form <> inr (Some config).
Proof.
  intros validated Hpending Hvalid Hreferrer Hreferee.
  assert (H : submitForm validateAllFields form = inr None).
  { unfold submitForm. fold validated.
    rewrite Hpending, Hvalid, Hreferrer, Hreferee. reflexivity. }
  split; [exact H|]. intros config. rewrite H. discriminate.
Qed.

Lemma submitForm_both_disabled_witness :
  let off :=
    {| referrerReward := mkReferrerReward false fixed 10 "USD";
       refereeReward := mkRefereeReward false percentage 20 "USD" (Some 50%Q) 30 |} in
  submitForm noFieldValidators (mkForm off false true) = inr None
  /\ forall config,
       submitForm noFieldValidators (mkForm off false true) <> inr (Some config).
Proof.
  intros off.
  apply (submitForm_both_disabled noFieldValidators (mkForm off false true));
    reflexivity.
Defined.

(** Under the range checks of the specification a submission with both sides
    disabled passes the schema, whatever the values left in the fields. *)
Lemma schema_accepts_disabled_pair currencies v :
  rr_enabled (referrerReward v) = false ->
  re_enabled (refereeReward v) = false ->
  programTemplateRewardStepSchemaV2 currencies v = true.
Proof.
  intros Hreferrer Hreferee. unfold programTemplateRewardStepSchemaV2.
  now rewrite Hreferrer, Hreferee.
Qed.

(** [submitForm] throws when validation is still running or has failed. *)
Lemma submitForm_invalid validateAllFields form :
  isValidating (validateAllFields form) = true
  \/ isValid (validateAllFields form) = false ->
  submitForm validateAllFields form
  = inl (PlainError "Reward configuration is invalid. Please check the fields.").
Proof.
  unfold submitForm. intros [-> | ->]; [reflexivity|].
  now rewrite orb_true_r.
Qed.

(** C10. When the validated form has at least one side enabled,
    [submitForm] returns a configuration with both entries: a referrer entry
    of type cash and a referee entry of type discount, each with the values
    of its side of the form, enabled or not. *)
Theorem submitForm_some_enabled validateAllFields form :
  let validated := validateAllFields form in
  let r := referrerReward (values validated) in
  let e := refereeReward (values validated) in
  isValidating validated = false ->
  isValid validated = true ->
  rr_enabled r || re_enabled e = true ->
  exists config,
    submitForm validateAllFields form = inr (Some config)
    /\ referrer config
       = mkReferrerConfig cash (rr_valueType r) (rr_value r) (rr_currency r)
    /\ referee config
       = mkRefereeConfig discount (re_valueType e) (re_value e) (re_currency e)
                         (re_minPurchaseAmount e) (re_validityDays e).
Proof.
  intros validated r e Hpending Hvalid Henabled.
  exists (mkRewardConfig
            (mkReferrerConfig cash (rr_valueType r) (rr_value r) (rr_currency r))
            (mkRefereeConfig discount (re_valueType e) (re_value e)
               (re_currency e) (re_minPurchaseAmount e) (re_validityDays e))).
  split; [|split; reflexivity].
  unfold submitForm. fold validated. fold r. fold e.
  rewrite Hpending, Hvalid, Henabled. reflexivity.
Qed.

(** Referee side switched off, referrer side on: the referee entry is there
    all the same, with the values left in the form. *)
Lemma submitForm_some_enabled_witness :
  let values :=
    {| referrerReward := mkReferrerReward true fixed 10 "USD";
       refereeReward := mkRefereeReward false percentage 250 "USD" None 30 |} in
  exists config,
    submitForm noFieldValidators (mkForm values false true) = inr (Some config)
    /\ referrer config = mkReferrerConfig cash fixed 10 "USD"
    /\ referee config = mkRefereeConfig discount percentage 250 "USD" None 30.
Proof.
  intros values.
  apply (submitForm_some_enabled noFieldValidators (mkForm values false true));
    reflexivity.
Defined.


(* ===================================================================== *)
(** * Further properties of the router *)
(* ===================================================================== *)

(** ** What a passed validation tells *)

Lemma validateRoleChange_passed p target newRole u w w' :
  validateRoleChange p target newRole u w = (inr tt, w') ->
  w' = w
  /\ exists rc rt,
       selectMembership p u (tables w) = Some rc
       /\ (pu_role rc === "member") = false
       /\ selectMembership p target (tables w) = Some rt
       /\ (pu_role rt === "owner")
          && (owners (getProjectMemberCounts p (tables w)) =? 1)
          && negb (newRole === "owner") = false
       /\ (pu_role rt === "admin")
          && (admins (getProjectMemberCounts p (tables w)) =? 1)
          && (owners (getProjectMemberCounts p (tables w)) =? 0)
          && (newRole === "member") = false
       /\ (newRole === "owner") && negb (pu_role rc === "owner") = false.
Proof.
  unfold validateRoleChange, bind, query, trpcError, throw, ret. run.
  destruct (selectMembership p u (tables w)) as [rc|]; [|discriminate].
  destruct (pu_role rc === "member") eqn:Hm; [discriminate|]. run.
  destruct (selectMembership p target (tables w)) as [rt|]; [|discriminate].
  run.
  destruct ((pu_role rt === "owner")
            && (owners (getProjectMemberCounts p (tables w)) =? 1)
            && negb (newRole === "owner")) eqn:G1; [discriminate|].
  destruct ((pu_role rt === "admin")
            && (admins (getProjectMemberCounts p (tables w)) =? 1)
            && (owners (getProjectMemberCounts p (tables w)) =? 0)
            && (newRole === "member")) eqn:G2; [discriminate|].
  destruct ((newRole === "owner") && negb (pu_role rc === "owner")) eqn:G3;
    [discriminate|].
  intros [= <-]. split; [reflexivity|]. exists rc, rt. auto 10.
Qed.

Lemma validateMemberRemoval_passed p target u w w' :
  validateMemberRemoval p target u w = (inr tt, w') ->
  w' = w
  /\ exists rc rt,
       selectMembership p u (tables w) = Some rc
       /\ (pu_role rc === "member") = false
       /\ selectMembership p target (tables w) = Some rt
       /\ (total (getProjectMemberCounts p (tables w)) =? 1) = false
       /\ (pu_role rt === "owner")
          && (owners (getProjectMemberCounts p (tables w)) =? 1) = false
       /\ (pu_role rt === "admin")
          && (admins (getProjectMemberCounts p (tables w)) =? 1)
          && (owners (getProjectMemberCounts p (tables w)) =? 0) = false.
Proof.
  unfold validateMemberRemoval, bind, query, trpcError, throw, ret. run.
  destruct (selectMembership p u (tables w)) as [rc|]; [|discriminate].
  destruct (pu_role rc === "member") eqn:Hm; [discriminate|]. run.
  destruct (selectMembership p target (tables w)) as [rt|]; [|discriminate].
  run.
  destruct (total (getProjectMemberCounts p (tables w)) =? 1) eqn:G0;
    [discriminate|].
  destruct ((pu_role rt === "owner")
            && (owners (getProjectMemberCounts p (tables w)) =? 1)) eqn:G1;
    [discriminate|].
  destruct ((pu_role rt === "admin")
            && (admins (getProjectMemberCounts p (tables w)) =? 1)
            && (owners (getProjectMemberCounts p (tables w)) =? 0)) eqn:G2;
    [discriminate|].
  intros [= <-]. split; [reflexivity|]. exists rc, rt. auto 10.
Qed.

Lemma validateRoleChange_world p target newRole u w :
  snd (validateRoleChange p target newRole u w) = w.
Proof.
  unfold validateRoleChange, bind, query, trpcError, throw, ret. run.
  destruct (selectMembership p u (tables w)) as [rc|]; [|reflexivity].
  destruct (pu_role rc === "member"); [reflexivity|]. run.
  destruct (selectMembership p target (tables w)) as [rt|]; [|reflexivity].
  run.
  repeat match goal with
         | |- context [if ?b then _ else _] => destruct b
         end; reflexivity.
Qed.

Lemma validateMemberRemoval_world p target u w :
  snd (validateMemberRemoval p target u w) = w.
Proof.
  unfold validateMemberRemoval, bind, query, trpcError, throw, ret. run.
  destruct (selectMembership p u (tables w)) as [rc|]; [|reflexivity].
  destruct (pu_role rc === "member"); [reflexivity|]. run.
  destruct (selectMembership p target (tables w)) as [rt|]; [|reflexivity].
  run.
  repeat match goal with
         | |- context [if ?b then _ else _] => destruct b
         end; reflexivity.
Qed.

(** X1. [changeRole] and [remove] are all or nothing: either they throw and
    the world is untouched, or they return [{ success: true }] after exactly
    one provider call, the update or removal that was asked for. *)
Theorem membership_mutations_all_or_nothing auth ctx target role w :
  (rejected (changeRole auth ctx target role) w
   \/ exists p,
        present (activeProjectId ctx) = Some p
        /\ changeRole auth ctx target role w
           = (inr (mkSuccess true),
              afterCall auth (UpdateMemberRole p target role) w))
  /\ (rejected (remove auth ctx target) w
      \/ exists p,
           present (activeProjectId ctx) = Some p
           /\ remove auth ctx target w
              = (inr (mkSuccess true),
                 afterCall auth (RemoveMember p target) w)).
Proof.
  split.
  - unfold rejected, changeRole, afterCall, callAuth, bind, ret.
    destruct (present (activeProjectId ctx)) as [p|];
      [|left; eexists; reflexivity].
    destruct (present (userId ctx)) as [u|]; [|left; eexists; reflexivity].
    run.
    pose proof (validateRoleChange_world p target (roleString role) u w) as Hw.
    destruct (validateRoleChange p target (roleString role) u w) as [[e|[]] w1];
      simpl in Hw; subst w1.
    + left. eexists; reflexivity.
    + right. exists p. split; [reflexivity|].
      destruct (auth (UpdateMemberRole p target role) (tables w)); reflexivity.
  - unfold rejected, remove, afterCall, callAuth, bind, ret.
    destruct (present (activeProjectId ctx)) as [p|];
      [|left; eexists; reflexivity].
    destruct (present (userId ctx)) as [u|]; [|left; eexists; reflexivity].
    run.
    pose proof (validateMemberRemoval_world p target u w) as Hw.
    destruct (validateMemberRemoval p target u w) as [[e|[]] w1];
      simpl in Hw; subst w1.
    + left. eexists; reflexivity.
    + right. exists p. split; [reflexivity|].
      destruct (auth (RemoveMember p target) (tables w)); reflexivity.
Qed.

(** ** The membership floors *)

Lemma key_mismatch org memberId r :
  membershipKey r <> (org, memberId) ->
  (pu_projectId r === org) && (pu_userId r === memberId) = false.
Proof.
  intros Hne. apply not_true_is_false. intros H.
  apply andb_true_iff in H. destruct H as [Hp Hu].
  apply String.eqb_eq in Hp, Hu. apply Hne. unfold membershipKey. congruence.
Qed.

(** With unique keys a member's row splits the table in two parts that do
    not mention that member. *)
Lemma unique_membership_split l rt :
  NoDup (map membershipKey l) ->
  In rt l ->
  exists l1 l2,
    l = l1 ++ rt :: l2
    /\ forall x, In x (l1 ++ l2) -> membershipKey x <> membershipKey rt.
Proof.
  intros Hnd Hin. apply in_split in Hin. destruct Hin as (l1 & l2 & ->).
  exists l1, l2. split; [reflexivity|].
  rewrite map_app in Hnd. simpl in Hnd. apply NoDup_remove_2 in Hnd.
  intros x Hx Heq. apply Hnd. rewrite <- map_app, <- Heq. now apply in_map.
Qed.

Lemma setRole_elsewhere org memberId role l :
  (forall x, In x l -> membershipKey x <> (org, memberId)) ->
  map (setRole org memberId role) l = l.
Proof.
  intros H. rewrite <- (map_id l) at 2. apply map_ext_in. intros x Hx.
  unfold setRole. now rewrite (key_mismatch _ _ _ (H x Hx)).
Qed.

Lemma remove_elsewhere org memberId l :
  (forall x, In x l -> membershipKey x <> (org, memberId)) ->
  filter (fun r => negb ((pu_projectId r === org) && (pu_userId r === memberId))) l
  = l.
Proof.
  intros H. induction l as [|x l IH]; [reflexivity|]. simpl.
  rewrite (key_mismatch _ _ _ (H x (or_introl eq_refl))). simpl.
  f_equal. apply IH. intros y Hy. apply H. now right.
Qed.

Lemma filter_length_split {A : Type} (f : A -> bool) l1 x l2 :
  length (filter f (l1 ++ x :: l2))
  = length (filter f l1) + (if f x then 1 else 0) + length (filter f l2).
Proof.
  rewrite filter_app, length_app. simpl. destruct (f x); simpl; lia.
Qed.

Lemma filter_length_app {A : Type} (f : A -> bool) (l1 l2 : list A) :
  length (filter f (l1 ++ l2)) = length (filter f l1) + length (filter f l2).
Proof. now rewrite filter_app, length_app. Qed.

(** The table after a role update of the member whose row is [rt]. *)
Lemma table_after_update p target role l rt :
  NoDup (map membershipKey l) ->
  In rt l -> pu_projectId rt = p -> pu_userId rt = target ->
  exists l1 l2,
    l = l1 ++ rt :: l2
    /\ map (setRole p target role) l
       = l1 ++ mkProjectUser p target role (pu_createdAt rt) :: l2.
Proof.
  intros Hnd Hin Hp Hu.
  destruct (unique_membership_split l rt Hnd Hin) as (l1 & l2 & -> & Hrest).
  exists l1, l2. split; [reflexivity|].
  assert (Hkey : membershipKey rt = (p, target))
    by (unfold membershipKey; congruence).
  rewrite Hkey in Hrest.
  rewrite map_app. simpl.
  rewrite !setRole_elsewhere
    by (intros x Hx; apply Hrest, in_or_app; auto).
  unfold setRole at 1. rewrite Hp, Hu, !String.eqb_refl. reflexivity.
Qed.

(** The table after the removal of the member whose row is [rt]. *)
Lemma table_after_removal p target l rt :
  NoDup (map membershipKey l) ->
  In rt l -> pu_projectId rt = p -> pu_userId rt = target ->
  exists l1 l2,
    l = l1 ++ rt :: l2
    /\ filter (fun r => negb ((pu_projectId r === p) && (pu_userId r === target))) l
       = l1 ++ l2.
Proof.
  intros Hnd Hin Hp Hu.
  destruct (unique_membership_split l rt Hnd Hin) as (l1 & l2 & -> & Hrest).
  exists l1, l2. split; [reflexivity|].
  assert (Hkey : membershipKey rt = (p, target))
    by (unfold membershipKey; congruence).
  rewrite Hkey in Hrest.
  rewrite filter_app. simpl. rewrite Hp, Hu, !String.eqb_refl. simpl.
  rewrite !remove_elsewhere
    by (intros x Hx; apply Hrest, in_or_app; auto).
  reflexivity.
Qed.

Lemma referenceAuth_removesMember : removesMember referenceAuth.
Proof. intros org memberId t. reflexivity. Qed.

(** Turn the guards that did not fire into arithmetic. *)
Ltac guards_to_arith :=
  repeat match goal with
         | H : _ && _ = false |- _ =>
           apply andb_false_iff in H; destruct H as [H|H]
         | H : (_ =? _) = false |- _ => apply Nat.eqb_neq in H
         | H : (_ === _) = true |- _ => apply String.eqb_eq in H
         | H : negb _ = false |- _ => apply negb_false_iff in H
         | H : true = false |- _ => discriminate H
         | H : false = true |- _ => discriminate H
         end.

Ltac unique_keys :=
  unfold uniqueMemberships, uniqueUsers; simpl;
  repeat (constructor; [simpl; intuition discriminate|]); constructor.

(** X2. A role change that goes through keeps the floors of the project,
    provided the provider rewrites the role as asked and a user has one
    membership row per project: the number of members is unchanged, a
    project that had an owner still has one, and a project that had an owner
    or admin still has one. *)
Theorem changeRole_keeps_floors auth ctx target role w p r w' :
  updatesMemberRole auth ->
  uniqueMemberships (tables w) ->
  present (activeProjectId ctx) = Some p ->
  changeRole auth ctx target role w = (inr r, w') ->
  let before := getProjectMemberCounts p (tables w) in
  let after := getProjectMemberCounts p (tables w') in
  total after = total before
  /\ (1 <= owners before -> 1 <= owners after)
  /\ (1 <= owners before + admins before -> 1 <= owners after + admins after).
Proof.
  intros Hauth Hnd Hp Hrun before after.
  unfold changeRole in Hrun. rewrite Hp in Hrun.
  destruct (present (userId ctx)) as [u|]; [|discriminate].
  unfold bind, callAuth, ret in Hrun.
  destruct (validateRoleChange p target (roleString role) u w)
    as [[e|[]] w1] eqn:Hv; [discriminate|].
  apply validateRoleChange_passed in Hv.
  destruct Hv as (-> & rc & rt & Hrc & Hnm & Hrt & G1 & G2 & G3).
  specialize (Hauth p target role (tables w)).
  destruct (auth (UpdateMemberRole p target role) (tables w)) as [reply t'].
  injection Hrun as _ <-. simpl in Hauth.
  apply selectMembership_Some in Hrt. destruct Hrt as (Hin & Hpt & Hut).
  destruct (table_after_update p target (roleString role) _ rt Hnd Hin Hpt Hut)
    as (l1 & l2 & Hl & Hl').
  subst before after. unfold getProjectMemberCounts in *. simpl in *.
  rewrite Hauth, Hl'. rewrite Hl in G1, G2 |- *.
  rewrite !filter_length_split in *. simpl in *.
  rewrite Hpt, !String.eqb_refl in *. simpl in *.
  destruct (pu_role rt === "owner") eqn:B1;
    destruct (pu_role rt === "admin") eqn:B3;
    try (apply String.eqb_eq in B1; rewrite B1 in B3; discriminate B3);
    destruct role; simpl in *; guards_to_arith;
    repeat split; intros; lia.
Qed.

Lemma changeRole_keeps_floors_witness :
  let w' := afterCall referenceAuth (UpdateMemberRole "acme" "bob" RMember) acmeTeam in
  let before := getProjectMemberCounts "acme" (tables acmeTeam) in
  let after := getProjectMemberCounts "acme" (tables w') in
  total after = total before
  /\ (1 <= owners before -> 1 <= owners after)
  /\ (1 <= owners before + admins before -> 1 <= owners after + admins after).
Proof.
  intros w'.
  apply (changeRole_keeps_floors
           referenceAuth (ctxOf "ann" "owner") "bob" RMember acmeTeam "acme"
           (mkSuccess true) w').
  - exact referenceAuth_updatesMemberRole.
  - unique_keys.
  - reflexivity.
  - reflexivity.
Defined.

(** X3. A removal that goes through keeps the floors of the project,
    provided the provider removes the row as asked and a user has one
    membership row per project: exactly one member is gone, at least one
    member is left, a project that had an owner still has one, and a project
    that had an owner or admin still has one. *)
Theorem remove_keeps_floors auth ctx target w p r w' :
  removesMember auth ->
  uniqueMemberships (tables w) ->
  present (activeProjectId ctx) = Some p ->
  remove auth ctx target w = (inr r, w') ->
  let before := getProjectMemberCounts p (tables w) in
  let after := getProjectMemberCounts p (tables w') in
  S (total after) = total before
  /\ 1 <= total after
  /\ (1 <= owners before -> 1 <= owners after)
  /\ (1 <= owners before + admins before -> 1 <= owners after + admins after).
Proof.
  intros Hauth Hnd Hp Hrun before after.
  unfold remove in Hrun. rewrite Hp in Hrun.
  destruct (present (userId ctx)) as [u|]; [|discriminate].
  unfold bind, callAuth, ret in Hrun.
  destruct (validateMemberRemoval p target u w) as [[e|[]] w1] eqn:Hv;
    [discriminate|].
  apply validateMemberRemoval_passed in Hv.
  destruct Hv as (-> & rc & rt & Hrc & Hnm & Hrt & G0 & G1 & G2).
  specialize (Hauth p target (tables w)).
  destruct (auth (RemoveMember p target) (tables w)) as [reply t'].
  injection Hrun as _ <-. simpl in Hauth.
  apply selectMembership_Some in Hrt. destruct Hrt as (Hin & Hpt & Hut).
  destruct (table_after_removal p target _ rt Hnd Hin Hpt Hut)
    as (l1 & l2 & Hl & Hl').
  subst before after. unfold getProjectMemberCounts in *. simpl in *.
  rewrite Hauth, Hl'. rewrite Hl in G0, G1, G2 |- *.
  rewrite !filter_length_split, !filter_length_app in *. simpl in *.
  rewrite Hpt, !String.eqb_refl in *. simpl in *.
  destruct (pu_role rt === "owner") eqn:B1;
    destruct (pu_role rt === "admin") eqn:B3;
    try (apply String.eqb_eq in B1; rewrite B1 in B3; discriminate B3);
    simpl in *; guards_to_arith;
    repeat split; intros; lia.
Qed.

Lemma remove_keeps_floors_witness :
  let w' := afterCall referenceAuth (RemoveMember "acme" "bob") acmeTeam in
  let before := getProjectMemberCounts "acme" (tables acmeTeam) in
  let after := getProjectMemberCounts "acme" (tables w') in
  S (total after) = total before
  /\ 1 <= total after
  /\ (1 <= owners before -> 1 <= owners after)
  /\ (1 <= owners before + admins before -> 1 <= owners after + admins after).
Proof.
  intros w'.
  apply (remove_keeps_floors
           referenceAuth (ctxOf "ann" "owner") "bob" acmeTeam "acme"
           (mkSuccess true) w').
  - exact referenceAuth_removesMember.
  - unique_keys.
  - reflexivity.
  - reflexivity.
Defined.

(** ** Who gets through *)

(** X4. A [changeRole] or [remove] that goes through was asked by a user
    with a membership in the active project whose role is not member, about
    a user who is a member of that project; and a [changeRole] to owner that
    goes through was asked by an owner. *)
Theorem successful_mutation_was_authorised auth ctx target w r w' :
  (exists role, changeRole auth ctx target role w = (inr r, w'))
  \/ remove auth ctx target w = (inr r, w') ->
  exists p u,
    resolved ctx p u
    /\ isPrivileged (tables w) p u = true
    /\ selectMembership p target (tables w) <> None
    /\ (changeRole auth ctx target ROwner w = (inr r, w') ->
        membershipRole (tables w) p u = Some "owner").
Proof.
  intros Hrun.
  assert (Hctx : exists p u, resolved ctx p u).
  { unfold changeRole, remove, resolved in *.
    destruct (present (activeProjectId ctx)) as [p|];
      [|destruct Hrun as [[role Hrun]|Hrun]; discriminate].
    destruct (present (userId ctx)) as [u|];
      [|destruct Hrun as [[role Hrun]|Hrun]; discriminate].
    exists p, u. auto. }
  destruct Hctx as (p & u & Hp & Hu). exists p, u.
  split; [split; assumption|].
  unfold changeRole, remove in *. rewrite Hp, Hu in *.
  unfold bind, callAuth, ret in *.
  assert (Hpass : exists rc rt,
             selectMembership p u (tables w) = Some rc
             /\ (pu_role rc === "member") = false
             /\ selectMembership p target (tables w) = Some rt).
  { destruct Hrun as [[role Hrun]|Hrun].
    - destruct (validateRoleChange p target (roleString role) u w)
        as [[e|[]] w1] eqn:Hv; [discriminate|].
      apply validateRoleChange_passed in Hv.
      destruct Hv as (_ & rc & rt & Hrc & Hnm & Hrt & _). eauto.
    - destruct (validateMemberRemoval p target u w)
        as [[e|[]] w1] eqn:Hv; [discriminate|].
      apply validateMemberRemoval_passed in Hv.
      destruct Hv as (_ & rc & rt & Hrc & Hnm & Hrt & _). eauto. }
  destruct Hpass as (rc & rt & Hrc & Hnm & Hrt).
  split; [|split].
  - unfold isPrivileged. now rewrite Hrc, Hnm.
  - now rewrite Hrt.
  - intros Hown.
    destruct (validateRoleChange p target (roleString ROwner) u w)
      as [[e|[]] w1] eqn:Hv; [discriminate|].
    apply validateRoleChange_passed in Hv.
    destruct Hv as (_ & rc' & rt' & Hrc' & _ & _ & _ & _ & G3).
    rewrite Hrc in Hrc'. injection Hrc' as <-.
    simpl in G3. apply negb_false_iff, String.eqb_eq in G3.
    unfold membershipRole. rewrite Hrc. simpl. now rewrite G3.
Qed.

Lemma successful_mutation_was_authorised_witness :
  exists p u,
    resolved (ctxOf "ann" "owner") p u
    /\ isPrivileged (tables acmeTeam) p u = true
    /\ selectMembership p "cid" (tables acmeTeam) <> None
    /\ (changeRole referenceAuth (ctxOf "ann" "owner") "cid" ROwner acmeTeam
        = (inr (mkSuccess true),
           afterCall referenceAuth (UpdateMemberRole "acme" "cid" ROwner) acmeTeam) ->
        membershipRole (tables acmeTeam) p u = Some "owner").
Proof.
  apply (successful_mutation_was_authorised
           referenceAuth (ctxOf "ann" "owner") "cid" acmeTeam (mkSuccess true)
           (afterCall referenceAuth (UpdateMemberRole "acme" "cid" ROwner) acmeTeam)).
  left. exists ROwner. reflexivity.
Defined.

(** X5. The guards never compare the ranks of caller and target: whoever
    passes the permission guard, an admin included, removes an owner, or
    demotes one, as soon as the project has a second owner. *)
Theorem owner_is_exposed_once_not_alone auth ctx w p u target :
  resolved ctx p u ->
  isPrivileged (tables w) p u = true ->
  membershipRole (tables w) p target = Some "owner" ->
  2 <= owners (getProjectMemberCounts p (tables w)) ->
  remove auth ctx target w
  = (inr (mkSuccess true), afterCall auth (RemoveMember p target) w)
  /\ forall role,
       role <> ROwner ->
       changeRole auth ctx target role w
       = (inr (mkSuccess true),
          afterCall auth (UpdateMemberRole p target role) w).
Proof.
  intros [Hp Hu] Hpriv Htgt Htwo.
  apply isPrivileged_true in Hpriv. destruct Hpriv as (rc & Hrc & Hnm).
  apply membershipRole_Some in Htgt. destruct Htgt as (rt & Hrt & Hro).
  pose proof (counts_total_bound p (tables w)) as Hbound.
  assert (Ho : (owners (getProjectMemberCounts p (tables w)) =? 1) = false)
    by (apply Nat.eqb_neq; lia).
  assert (Ht : (total (getProjectMemberCounts p (tables w)) =? 1) = false)
    by (apply Nat.eqb_neq; lia).
  split; [|intros role Hrole]; unfold_handler;
    rewrite Hp, Hu, Hrc, Hnm, Hrt; run; rewrite Hro, Ho.
  - rewrite Ht. simpl.
    destruct (auth (RemoveMember p target) (tables w)); reflexivity.
  - rewrite (roleString_not_owner role Hrole). simpl.
    destruct (auth (UpdateMemberRole p target role) (tables w)); reflexivity.
Qed.

(** Admin [bob] removes owner [ann], and demotes her to member, while [fay]
    is an owner too. *)
Lemma owner_is_exposed_once_not_alone_witness :
  let bob := ctxOf "bob" "admin" in
  remove referenceAuth bob "ann" acmeTwoOwners
  = (inr (mkSuccess true),
     afterCall referenceAuth (RemoveMember "acme" "ann") acmeTwoOwners)
  /\ changeRole referenceAuth bob "ann" RMember acmeTwoOwners
     = (inr (mkSuccess true),
        afterCall referenceAuth (UpdateMemberRole "acme" "ann" RMember) acmeTwoOwners).
Proof.
  intros bob.
  destruct (owner_is_exposed_once_not_alone
              referenceAuth bob acmeTwoOwners "acme" "bob" "ann")
    as (Hremove & Hdemote).
  - split; reflexivity.
  - reflexivity.
  - reflexivity.
  - vm_compute. lia.
  - split; [exact Hremove | apply Hdemote; discriminate].
Defined.

(** X6. For a caller who passes the permission guard, [changeRole] and
    [remove] of a user who has no membership in the active project fail with
    NOT_FOUND, whatever the role asked for, and change nothing. *)
Theorem stranger_target_not_found auth ctx w p u target :
  resolved ctx p u ->
  isPrivileged (tables w) p u = true ->
  selectMembership p target (tables w) = None ->
  (forall role, failsWith NOT_FOUND (changeRole auth ctx target role) w)
  /\ failsWith NOT_FOUND (remove auth ctx target) w.
Proof.
  intros [Hp Hu] Hpriv Htgt.
  apply isPrivileged_true in Hpriv. destruct Hpriv as (rc & Hrc & Hnm).
  split; [intros role|]; unfold_handler; rewrite Hp, Hu, Hrc, Hnm, Htgt;
    eexists; reflexivity.
Qed.

Lemma stranger_target_not_found_witness :
  failsWith NOT_FOUND
    (changeRole referenceAuth (ctxOf "ann" "owner") "dan" RAdmin) acmeTeam
  /\ failsWith NOT_FOUND (remove referenceAuth (ctxOf "ann" "owner") "dan") acmeTeam.
Proof.
  destruct (stranger_target_not_found
              referenceAuth (ctxOf "ann" "owner") acmeTeam "acme" "ann" "dan")
    as (Hchange & Hremove).
  - split; reflexivity.
  - reflexivity.
  - reflexivity.
  - split; [apply Hchange | exact Hremove].
Defined.

(** ** Invitations *)

Lemma present_Some o s : present o = Some s -> o = Some s.
Proof.
  unfold present. destruct o as [x|]; [|discriminate].
  destruct (x === ""); [discriminate|]. now intros [= ->].
Qed.

(** The rows that [listInvitations] joins. *)
Lemma listInvitations_rows p (users : list UserRow)
    (invitations : list InvitationRow) inv u :
  In (inv, u)
     (flat_map
        (fun inv => map (fun u => (inv, u))
                        (filter (fun u => u_id u === inv_inviterId inv) users))
        (filter (fun inv => (inv_projectId inv === p)
                            && (inv_status inv === "pending"))
                invitations))
  <-> In inv invitations /\ inv_projectId inv = p
      /\ inv_status inv = "pending"
      /\ In u users /\ u_id u = inv_inviterId inv.
Proof.
  rewrite in_flat_map. split.
  - intros (i & Hi & Hu). apply filter_In in Hi. destruct Hi as (Hi & Hb).
    apply andb_true_iff in Hb. destruct Hb as (Hp & Hs).
    apply String.eqb_eq in Hp, Hs.
    apply in_map_iff in Hu. destruct Hu as (x & [= <- <-] & Hx).
    apply filter_In in Hx. destruct Hx as (Hx & Hid).
    apply String.eqb_eq in Hid. auto.
  - intros (Hi & Hp & Hs & Hu & Hid). exists inv. split.
    + apply filter_In. split; [assumption|].
      now rewrite Hp, Hs, !String.eqb_refl.
    + apply in_map. apply filter_In. split; [assumption|].
      now rewrite Hid, String.eqb_refl.
Qed.

(** X7. [listInvitations] only reads, and every entry it returns comes from
    an invitation row of the active project whose status is pending and
    whose inviter has a user row; the entry shows that status, and a missing
    role as member. *)
Theorem listInvitations_lists_pending toLocaleDateString ctx w views w' :
  listInvitations toLocaleDateString ctx w = (inr views, w') ->
  w' = w
  /\ exists p,
       present (activeProjectId ctx) = Some p
       /\ forall v, In v views ->
            iv_status v = "pending"
            /\ exists inv u,
                 In inv (invitation (tables w))
                 /\ inv_projectId inv = p
                 /\ inv_status inv = "pending"
                 /\ inv_id inv = iv_id v
                 /\ inv_email inv = iv_email v
                 /\ iv_role v = match inv_role inv with
                                | Some r => r
                                | None => "member"
                                end
                 /\ In u (user (tables w))
                 /\ u_id u = inv_inviterId inv.
Proof.
  unfold listInvitations, bind, query, throw, ret.
  destruct (present (activeProjectId ctx)) as [p|]; [|discriminate].
  intros [= <- <-]. split; [reflexivity|]. exists p. split; [reflexivity|].
  intros v Hv. apply in_map_iff in Hv. destruct Hv as ([inv u] & <- & Hrow).
  apply listInvitations_rows in Hrow.
  destruct Hrow as (Hi & Hp & Hs & Hu & Hid). simpl.
  split; [assumption|]. exists inv, u. auto 10.
Qed.

Lemma listInvitations_lists_pending_witness :
  exists views,
    listInvitations referenceDateFormat (ctxOf "ann" "owner") acmeOffice
    = (inr views, acmeOffice)
    /\ map iv_id views = ["inv_1"; "inv_2"]
    /\ map iv_role views = ["admin"; "member"]
    /\ forall v, In v views -> iv_status v = "pending".
Proof.
  eexists. split; [reflexivity|]. split; [reflexivity|]. split; [reflexivity|].
  intros v Hv.
  destruct (listInvitations_lists_pending
              referenceDateFormat (ctxOf "ann" "owner") acmeOffice _ acmeOffice
              eq_refl) as (_ & p & _ & Hall).
  now apply Hall.
Defined.

(** X8. After a [cancelInvitation] that goes through, the provider has been
    called once, the invitation table holds what the provider left of it
    except the rows of that id, and no later [listInvitations] shows that
    id. *)
Theorem cancelled_invitation_is_gone auth toLocaleDateString ctx invitationId w r w' :
  cancelInvitation auth ctx invitationId w = (inr r, w') ->
  calls w' = calls w ++ [CancelInvitation invitationId]
  /\ (forall inv,
        In inv (invitation (tables w'))
        <-> In inv (invitation
                      (snd (auth (CancelInvitation invitationId) (tables w))))
            /\ inv_id inv <> invitationId)
  /\ forall ctx' views w'',
       listInvitations toLocaleDateString ctx' w' = (inr views, w'') ->
       forall v, In v views -> iv_id v <> invitationId.
Proof.
  intros Hrun. unfold cancelInvitation, bind, callAuth, dbWrite, trpcError, throw, ret in Hrun.
  destruct (roleIs ctx "member"); [discriminate|].
  destruct (auth (CancelInvitation invitationId) (tables w)) as [reply t1] eqn:Ha.
  injection Hrun as _ <-. simpl.
  assert (Hgone : forall inv,
             In inv (filter (fun inv => negb (inv_id inv === invitationId))
                            (invitation t1))
             <-> In inv (invitation t1) /\ inv_id inv <> invitationId).
  { intros inv. rewrite filter_In, negb_true_iff.
    split; intros [Hin Hid]; (split; [assumption|]).
    - intros Heq. rewrite Heq, String.eqb_refl in Hid. discriminate.
    - now apply String.eqb_neq. }
  split; [reflexivity|]. split; [exact Hgone|].
  intros ctx' views w'' Hlist v Hv.
  unfold listInvitations, bind, query, throw, ret in Hlist.
  destruct (present (activeProjectId ctx')) as [p|]; [|discriminate].
  injection Hlist as <- _. simpl in Hv.
  apply in_map_iff in Hv. destruct Hv as ([inv u] & <- & Hrow).
  apply listInvitations_rows in Hrow. simpl in Hrow.
  destruct Hrow as (Hi & _). simpl. now apply Hgone in Hi.
Qed.

Lemma cancelled_invitation_is_gone_witness :
  let ann := ctxOf "ann" "owner" in
  exists w' views,
    cancelInvitation referenceAuth ann "inv_1" acmeOffice
    = (inr (mkSuccess true), w')
    /\ calls w' = [CancelInvitation "inv_1"]
    /\ listInvitations referenceDateFormat ann w' = (inr views, w')
    /\ map iv_id views = ["inv_2"]
    /\ forall v, In v views -> iv_id v <> "inv_1".
Proof.
  intros ann. eexists. eexists.
  split; [reflexivity|]. split; [reflexivity|]. split; [reflexivity|].
  split; [reflexivity|].
  destruct (cancelled_invitation_is_gone
              referenceAuth referenceDateFormat ann "inv_1" acmeOffice _ _ eq_refl)
    as (_ & _ & Hlater).
  exact (Hlater ann _ _ eq_refl).
Defined.

(** X9. With an active project and a user, and an email that passes the
    parser, [resendInvitation] decides as [invite] does: both are refused
    with FORBIDDEN, or both ask the provider for the same invitation, apart
    from the [resend] flag.  They part on an email that does not pass:
    [invite] is answered with BAD_REQUEST, while [resendInvitation], whose
    input is any string, still decides by the role alone and may hand that
    string to the provider. *)
Theorem resend_decides_as_invite auth isEmail ctx email role w p u :
  resolved ctx p u ->
  let fresh := CreateInvitation (Some p) email role false in
  let again := CreateInvitation (Some p) email role true in
  let resent :=
    resendInvitation auth ctx email role w
    = (inr (mkInvited (fst (auth again (tables w)))), afterCall auth again w) in
  (isEmail email = true ->
   (failsWith FORBIDDEN (invite auth isEmail ctx email role) w
    /\ failsWith FORBIDDEN (resendInvitation auth ctx email role) w)
   \/ (invite auth isEmail ctx email role w
       = (inr (mkInvited (fst (auth fresh (tables w)))), afterCall auth fresh w)
       /\ resent))
  /\ (isEmail email = false ->
      failsWith BAD_REQUEST (invite auth isEmail ctx email role) w
      /\ (failsWith FORBIDDEN (resendInvitation auth ctx email role) w
          \/ resent)).
Proof.
  intros [Hp Hu] fresh again resent. subst fresh again resent.
  pose proof (present_Some _ _ Hp) as Hraw.
  split; intros Hmail; unfold_handler; rewrite Hmail, ?Hp, ?Hu, Hraw; simpl.
  - destruct (roleIs ctx "member"); [left; split; eexists; reflexivity|].
    destruct (roleIs ctx "admin" && (roleString role === "owner"));
      [left; split; eexists; reflexivity|].
    right.
    destruct (auth (CreateInvitation (Some p) email role false) (tables w)).
    destruct (auth (CreateInvitation (Some p) email role true) (tables w)).
    split; reflexivity.
  - split; [eexists; reflexivity|].
    destruct (roleIs ctx "member"); [left; eexists; reflexivity|].
    destruct (roleIs ctx "admin" && (roleString role === "owner"));
      [left; eexists; reflexivity|].
    right.
    destruct (auth (CreateInvitation (Some p) email role true) (tables w)).
    reflexivity.
Qed.

Lemma resend_decides_as_invite_witness :
  let bob := ctxOf "bob" "admin" in
  (failsWith FORBIDDEN
     (invite referenceAuth referenceIsEmail bob "eve@acme.test" ROwner) acmeTeam
   /\ failsWith FORBIDDEN
        (resendInvitation referenceAuth bob "eve@acme.test" ROwner) acmeTeam)
  /\ (calls (snd (invite referenceAuth referenceIsEmail bob "eve@acme.test"
                         RMember acmeTeam))
      = [CreateInvitation (Some "acme") "eve@acme.test" RMember false]
      /\ calls (snd (resendInvitation referenceAuth bob "eve@acme.test" RMember
                                      acmeTeam))
         = [CreateInvitation (Some "acme") "eve@acme.test" RMember true])
  /\ (failsWith BAD_REQUEST
        (invite referenceAuth referenceIsEmail bob "not-an-email" RMember) acmeTeam
      /\ calls (snd (resendInvitation referenceAuth bob "not-an-email" RMember
                                      acmeTeam))
         = [CreateInvitation (Some "acme") "not-an-email" RMember true]).
Proof.
  intros bob. split; [|split].
  - destruct (resend_decides_as_invite
                referenceAuth referenceIsEmail bob "eve@acme.test" ROwner
                acmeTeam "acme" "bob") as (Hok & _);
      [split; reflexivity|].
    destruct (Hok eq_refl) as [Hboth|[Hinv _]]; [exact Hboth|].
    vm_compute in Hinv. discriminate.
  - destruct (resend_decides_as_invite
                referenceAuth referenceIsEmail bob "eve@acme.test" RMember
                acmeTeam "acme" "bob") as (Hok & _);
      [split; reflexivity|].
    destruct (Hok eq_refl) as [[[msg Hinv] _]|[Hinv Hre]].
    + vm_compute in Hinv. discriminate.
    + rewrite Hinv, Hre. split; reflexivity.
  - destruct (resend_decides_as_invite
                referenceAuth referenceIsEmail bob "not-an-email" RMember
                acmeTeam "acme" "bob") as (_ & Hbad);
      [split; reflexivity|].
    destruct (Hbad eq_refl) as (Hinv & [[msg Hre]|Hre]).
    + vm_compute in Hre. discriminate.
    + rewrite Hre. split; [exact Hinv | reflexivity].
Defined.

(** ** The member list *)

Lemma unique_id_matches_once k (users : list UserRow) :
  NoDup (map u_id users) ->
  length (filter (fun u => k === u_id u) users) <= 1.
Proof.
  induction users as [|x users IH]; simpl; [lia|].
  intros Hnd. inversion Hnd as [|? ? Hnotin Hnd']; subst.
  destruct (k === u_id x) eqn:E; [|auto].
  apply String.eqb_eq in E. simpl.
  assert (Hnone : filter (fun u => k === u_id u) users = []).
  { destruct (filter (fun u => k === u_id u) users) as [|y l] eqn:F;
      [reflexivity|].
    assert (Hy : In y (filter (fun u => k === u_id u) users))
      by (rewrite F; now left).
    apply filter_In in Hy. destruct Hy as (Hy & Hk).
    apply String.eqb_eq in Hk. exfalso. apply Hnotin.
    rewrite <- E, Hk. now apply in_map. }
  rewrite Hnone. simpl. lia.
Qed.

Lemma flat_map_length_bound {A B : Type} (f : A -> list B) (l : list A) :
  (forall x, length (f x) <= 1) -> length (flat_map f l) <= length l.
Proof.
  intros H. induction l as [|x l IH]; simpl; [lia|].
  rewrite length_app. specialize (H x). lia.
Qed.

(** X10. [listMembers] only reads.  Its counts are those of the active
    project; every entry comes from a membership row of that project whose
    user has a user row, and is flagged as the current user exactly when its
    id is [ctx.userId]; with unique user ids there are at most [counts.total]
    entries. *)
Theorem listMembers_summary toLocaleDateString ctx w r w' :
  listMembers toLocaleDateString ctx w = (inr r, w') ->
  w' = w
  /\ currentUserId r = userId ctx
  /\ currentUserRole r = projectUserRole ctx
  /\ exists p,
       present (activeProjectId ctx) = Some p
       /\ counts r = getProjectMemberCounts p (tables w)
       /\ (forall v, In v (members r) ->
             (mv_isCurrentUser v = true <-> userId ctx = Some (mv_id v))
             /\ (exists pu, In pu (projectUser (tables w))
                            /\ pu_projectId pu = p
                            /\ pu_userId pu = mv_id v
                            /\ pu_role pu = mv_role v)
             /\ exists u, In u (user (tables w)) /\ u_id u = mv_id v)
       /\ (uniqueUsers (tables w) -> length (members r) <= total (counts r)).
Proof.
  unfold listMembers, bind, query, trpcError, throw, ret.
  destruct (present (activeProjectId ctx)) as [p|]; [|discriminate].
  intros [= <- <-]. simpl.
  split; [reflexivity|]. split; [reflexivity|]. split; [reflexivity|].
  exists p. split; [reflexivity|]. split; [reflexivity|]. split.
  - intros v Hv. apply in_map_iff in Hv. destruct Hv as ([u pu] & <- & Hrow).
    apply in_flat_map in Hrow. destruct Hrow as (pu' & Hpu & Hu).
    apply in_map_iff in Hu. destruct Hu as (u' & [= <- <-] & Hu).
    apply filter_In in Hpu. destruct Hpu as (Hpu & Hp).
    apply filter_In in Hu. destruct Hu as (Hu & Hid).
    apply String.eqb_eq in Hp, Hid. simpl. split; [|split].
    + destruct (userId ctx) as [uid|].
      * rewrite String.eqb_eq. split; [now intros -> | now intros [= ->]].
      * split; discriminate.
    + exists pu'. auto.
    + exists u'. auto.
  - intros Hunique. rewrite length_map.
    etransitivity; [apply flat_map_length_bound|reflexivity].
    intros pu. rewrite length_map.
    now apply unique_id_matches_once.
Qed.

(** [gus] is a member of [acme] without a user row: he is counted, not
    listed. *)
Lemma listMembers_summary_witness :
  exists r,
    listMembers referenceDateFormat (ctxOf "ann" "owner") acmeOffice
    = (inr r, acmeOffice)
    /\ map mv_id (members r) = ["ann"; "bob"]
    /\ map mv_isCurrentUser (members r) = [true; false]
    /\ total (counts r) = 3
    /\ length (members r) <= total (counts r).
Proof.
  eexists. split; [reflexivity|]. split; [reflexivity|]. split; [reflexivity|].
  split; [reflexivity|].
  destruct (listMembers_summary
              referenceDateFormat (ctxOf "ann" "owner") acmeOffice _ acmeOffice
              eq_refl) as (_ & _ & _ & p & _ & _ & _ & Hbound).
  apply Hbound. unique_keys.
Defined.

(* ===================================================================== *)
(** * Further properties of the setup page *)
(* ===================================================================== *)

(** X11. Optional steps never count: both aggregates are those of the
    required steps alone, and at most every required step is pending. *)
Theorem optional_steps_do_not_count steps :
  pendingSteps steps = pendingSteps (filter isRequired steps)
  /\ allRequiredComplete steps = allRequiredComplete (filter isRequired steps)
  /\ pendingSteps steps <= length (filter isRequired steps).
Proof.
  assert (Hidem : filter (fun step => isRequired step) (filter isRequired steps)
                  = filter isRequired steps).
  { induction steps as [|s steps IH]; [reflexivity|]. simpl.
    destruct (isRequired s) eqn:Hr; simpl; [rewrite Hr; f_equal|]; exact IH. }
  unfold pendingSteps, allRequiredComplete.
  split; [|split].
  - clear Hidem. induction steps as [|s steps IH]; [reflexivity|]. simpl.
    destruct (isRequired s) eqn:Hr; simpl; [rewrite Hr|exact IH].
    destruct (isComplete s); simpl; [exact IH | now rewrite IH].
  - now rewrite Hidem.
  - clear Hidem. induction steps as [|s steps IH]; [reflexivity|]. simpl.
    destruct (isRequired s); simpl; [|exact IH].
    destruct (isComplete s); simpl; lia.
Qed.

(** X12. Marking one step complete never raises [pendingSteps]: it lowers it
    by one when the step was required and not yet complete, and leaves it
    as it was otherwise; and it never takes [allRequiredComplete] back. *)
Theorem completing_a_step pre s post :
  let before := pre ++ s :: post in
  let after :=
    pre ++ mkStep (step_id s) (step_title s) (isRequired s) true :: post in
  pendingSteps after + (if isRequired s && negb (isComplete s) then 1 else 0)
  = pendingSteps before
  /\ (allRequiredComplete before = true -> allRequiredComplete after = true)
  /\ (pendingSteps before = 1 -> isRequired s = true -> isComplete s = false ->
      allRequiredComplete after = true).
Proof.
  intros before after.
  assert (Hcount :
    pendingSteps after + (if isRequired s && negb (isComplete s) then 1 else 0)
    = pendingSteps before).
  { subst before after. unfold pendingSteps.
    rewrite !filter_length_split. simpl.
    rewrite andb_false_r. lia. }
  split; [exact Hcount|].
  split.
  - rewrite !allRequiredComplete_iff_none_pending. lia.
  - intros Hone Hr Hc. apply allRequiredComplete_iff_none_pending.
    rewrite Hr, Hc in Hcount. simpl in Hcount. lia.
Qed.

Lemma completing_a_step_witness :
  let design := mkStep "design" "Design" true false in
  let tail := [mkStep "notifications" "Notifications" false false] in
  pendingSteps ([] ++ design :: tail) = 1
  /\ pendingSteps ([] ++ mkStep "design" "Design" true true :: tail) = 0
  /\ allRequiredComplete ([] ++ mkStep "design" "Design" true true :: tail) = true.
Proof.
  intros design tail.
  destruct (completing_a_step [] design tail) as (Hcount & _ & Hlive).
  split; [reflexivity|]. split; [reflexivity|].
  apply Hlive; reflexivity.
Defined.

(** X13. The two aggregates of the page, computed apart, agree: all required
    steps are complete exactly when no step is pending. *)
Theorem go_live_iff_nothing_pending steps :
  allRequiredComplete steps = true <-> pendingSteps steps = 0.
Proof. apply allRequiredComplete_iff_none_pending. Qed.

Ltac string_cases :=
  repeat match goal with
         | H : (_ === _) = true |- _ => apply String.eqb_eq in H; subst
         | H : (_ === _) = false |- _ => apply String.eqb_neq in H
         end.

(** The panels of a page whose program is loaded. *)
Lemma panels_when_loaded program step :
  length (renderedPanels (Some program) step) <= 1
  /\ (renderedPanels (Some program) step = [DesignConfig]
      <-> step = Some "design")
  /\ (renderedPanels (Some program) step = [RewardStepPanel]
      <-> step = Some "rewards")
  /\ (renderedPanels (Some program) step = [NotificationSetup]
      <-> step = Some "notifications")
  /\ (renderedPanels (Some program) step = [Installation]
      <-> step = Some "installation" \/ present step = None)
  /\ (renderedPanels (Some program) step = []
      <-> exists s, step = Some s /\ s <> "" /\ s <> "design" /\ s <> "rewards"
                    /\ s <> "notifications" /\ s <> "installation").
Proof.
  destruct step as [s|].
  - unfold renderedPanels, stepIs, present.
    destruct (s === "design") eqn:E1; [string_cases; simpl|].
    { repeat split; intros; try discriminate; try reflexivity; try lia.
      - destruct H as [H|H]; discriminate.
      - destruct H as (s & [= <-] & H). tauto. }
    destruct (s === "rewards") eqn:E2; [string_cases; simpl|].
    { repeat split; intros; try discriminate; try reflexivity; try lia.
      - destruct H as [H|H]; discriminate.
      - destruct H as (s & [= <-] & H). tauto. }
    destruct (s === "notifications") eqn:E3; [string_cases; simpl|].
    { repeat split; intros; try discriminate; try reflexivity; try lia.
      - destruct H as [H|H]; discriminate.
      - destruct H as (s & [= <-] & H). tauto. }
    destruct (s === "installation") eqn:E4; [string_cases; simpl|].
    { repeat split; intros; try discriminate; try reflexivity; try lia.
      - now left.
      - destruct H as (s & [= <-] & H). tauto. }
    destruct (s === "") eqn:E5; string_cases; simpl.
    { repeat split; intros; try discriminate; try reflexivity; try lia.
      - now right.
      - destruct H as (s & [= <-] & H). tauto. }
    repeat split; intros; try discriminate; try lia; try congruence.
    + destruct H as [H|H]; [congruence | discriminate].
    + exists s. auto 10.
  - simpl. repeat split; intros; try discriminate; try reflexivity; try lia.
    + now right.
    + destruct H as (s & H & _). discriminate.
Qed.

(** X14. The page mounts at most one panel.  While the program is loading it
    mounts none.  Once the program is there, each of the four step ids
    mounts its own panel; no step in the address, or an empty one, mounts
    the installation panel; any other step id mounts nothing. *)
Theorem one_panel_at_most program step :
  length (renderedPanels program step) <= 1
  /\ (program = None -> renderedPanels program step = [])
  /\ (program <> None ->
      (renderedPanels program step = [DesignConfig] <-> step = Some "design")
      /\ (renderedPanels program step = [RewardStepPanel]
          <-> step = Some "rewards")
      /\ (renderedPanels program step = [NotificationSetup]
          <-> step = Some "notifications")
      /\ (renderedPanels program step = [Installation]
          <-> step = Some "installation" \/ present step = None)
      /\ (renderedPanels program step = []
          <-> exists s, step = Some s /\ s <> "" /\ s <> "design"
                        /\ s <> "rewards" /\ s <> "notifications"
                        /\ s <> "installation")).
Proof.
  destruct program as [pr|].
  - destruct (panels_when_loaded pr step) as (Hlen & Hrest).
    split; [exact Hlen|]. split; [discriminate|]. intros _. exact Hrest.
  - split; [simpl; lia|]. split; [reflexivity|]. intros H. now elim H.
Qed.

Lemma one_panel_at_most_witness :
  let acme := Some (mkProgram "Acme referrals" setupInProgress) in
  renderedPanels None (Some "design") = []
  /\ renderedPanels acme (Some "design") = [DesignConfig]
  /\ renderedPanels acme None = [Installation]
  /\ renderedPanels acme (Some "billing") = [].
Proof.
  intros acme.
  destruct (one_panel_at_most None (Some "design")) as (_ & Hloading & _).
  destruct (one_panel_at_most acme (Some "design")) as (_ & _ & Hdesign).
  destruct (one_panel_at_most acme None) as (_ & _ & Hnone).
  destruct (one_panel_at_most acme (Some "billing")) as (_ & _ & Hother).
  split; [now apply Hloading|].
  split; [apply Hdesign; [discriminate | reflexivity]|].
  split.
  - destruct Hnone as (_ & _ & _ & Hinst & _); [discriminate|].
    apply Hinst. now right.
  - destruct Hother as (_ & _ & _ & _ & Hempty); [discriminate|].
    apply Hempty. exists "billing". repeat split; discriminate.
Defined.

(* ===================================================================== *)
(** * Further properties of the reward step *)
(* ===================================================================== *)

(** X15. The configuration that [submitForm] returns does not record which
    side was switched on: two validated forms with the same field values,
    each with some side on, give the same configuration, whichever side is
    on. *)
Theorem submitForm_forgets_the_switches validateAllFields form1 form2 :
  let v1 := values (validateAllFields form1) in
  let v2 := values (validateAllFields form2) in
  isValidating (validateAllFields form1) = false ->
  isValid (validateAllFields form1) = true ->
  isValidating (validateAllFields form2) = false ->
  isValid (validateAllFields form2) = true ->
  rr_enabled (referrerReward v1) || re_enabled (refereeReward v1) = true ->
  rr_enabled (referrerReward v2) || re_enabled (refereeReward v2) = true ->
  rr_valueType (referrerReward v1) = rr_valueType (referrerReward v2) ->
  rr_value (referrerReward v1) = rr_value (referrerReward v2) ->
  rr_currency (referrerReward v1) = rr_currency (referrerReward v2) ->
  re_valueType (refereeReward v1) = re_valueType (refereeReward v2) ->
  re_value (refereeReward v1) = re_value (refereeReward v2) ->
  re_currency (refereeReward v1) = re_currency (refereeReward v2) ->
  re_minPurchaseAmount (refereeReward v1) = re_minPurchaseAmount (refereeReward v2) ->
  re_validityDays (refereeReward v1) = re_validityDays (refereeReward v2) ->
  submitForm validateAllFields form1 = submitForm validateAllFields form2
  /\ exists config, submitForm validateAllFields form1 = inr (Some config).
Proof.
  intros v1 v2 Hp1 Hv1 Hp2 Hv2 He1 He2 H1 H2 H3 H4 H5 H6 H7 H8.
  unfold submitForm. fold v1 v2.
  rewrite Hp1, Hv1, Hp2, Hv2, He1, He2. simpl.
  rewrite H1, H2, H3, H4, H5, H6, H7, H8.
  split; [reflexivity | eexists; reflexivity].
Qed.

(** Only the referrer side on, or only the referee side on: the same
    configuration. *)
Lemma submitForm_forgets_the_switches_witness :
  let side (referrerOn refereeOn : bool) :=
    mkForm {| referrerReward := mkReferrerReward referrerOn fixed 10 "USD";
              refereeReward :=
                mkRefereeReward refereeOn percentage 20 "USD" None 30 |}
           false true in
  submitForm noFieldValidators (side true false)
  = submitForm noFieldValidators (side false true)
  /\ exists config,
       submitForm noFieldValidators (side true false) = inr (Some config).
Proof.
  intros side.
  apply (submitForm_forgets_the_switches
           noFieldValidators (side true false) (side false true));
    reflexivity.
Defined.

(* ===================================================================== *)
(** * Reading the membership table after a mutation *)
(* ===================================================================== *)

Lemma setRole_keys org memberId role r :
  pu_projectId (setRole org memberId role r) = pu_projectId r
  /\ pu_userId (setRole org memberId role r) = pu_userId r.
Proof. unfold setRole. destruct (_ && _); auto. Qed.

Lemma lookup_after_update_other p target role u t t' :
  projectUser t' = map (setRole p target role) (projectUser t) ->
  u <> target ->
  selectMembership p u t' = selectMembership p u t.
Proof.
  unfold selectMembership. intros -> Hne.
  induction (projectUser t) as [|x l IH]; [reflexivity|]. simpl.
  destruct (setRole_keys p target role x) as [-> ->].
  destruct ((pu_projectId x === p) && (pu_userId x === u)) eqn:Hm; [|exact IH].
  simpl. f_equal. unfold setRole.
  apply andb_true_iff in Hm. destruct Hm as [_ Hu]. apply String.eqb_eq in Hu.
  destruct (pu_userId x === target) eqn:Ho.
  - apply String.eqb_eq in Ho. congruence.
  - now rewrite andb_false_r.
Qed.

Lemma lookup_after_update_target p target role t t' rt :
  projectUser t' = map (setRole p target role) (projectUser t) ->
  selectMembership p target t = Some rt ->
  selectMembership p target t'
  = Some (mkProjectUser p target role (pu_createdAt rt)).
Proof.
  unfold selectMembership. intros ->.
  induction (projectUser t) as [|x l IH]; [discriminate|]. simpl.
  destruct (setRole_keys p target role x) as [-> ->].
  destruct ((pu_projectId x === p) && (pu_userId x === target)) eqn:Hm;
    [|exact IH].
  simpl. intros [= <-]. unfold setRole. rewrite Hm.
  apply andb_true_iff in Hm. destruct Hm as [Hp Hu].
  apply String.eqb_eq in Hp, Hu. now rewrite Hp, Hu.
Qed.

Lemma lookup_after_removal p target u t t' :
  projectUser t'
  = filter (fun r => negb ((pu_projectId r === p) && (pu_userId r === target)))
           (projectUser t) ->
  selectMembership p target t' = None
  /\ (u <> target -> selectMembership p u t' = selectMembership p u t).
Proof.
  unfold selectMembership. intros ->. split.
  - induction (projectUser t) as [|x l IH]; [reflexivity|]. simpl.
    destruct ((pu_projectId x === p) && (pu_userId x === target)) eqn:Hm;
      simpl; [exact IH|]. now rewrite Hm.
  - intros Hne. induction (projectUser t) as [|x l IH]; [reflexivity|]. simpl.
    destruct ((pu_projectId x === p) && (pu_userId x === target)) eqn:Hm; simpl.
    + apply andb_true_iff in Hm. destruct Hm as [Hp Hu].
      apply String.eqb_eq in Hu.
      destruct (pu_userId x === u) eqn:E.
      * apply String.eqb_eq in E. congruence.
      * rewrite andb_false_r. exact IH.
    + destruct ((pu_projectId x === p) && (pu_userId x === u));
        [reflexivity | exact IH].
Qed.

(** X16. After a role change that goes through, with a provider that
    rewrites the role as asked, the target's membership reads the new role,
    and the membership of every other user of the project reads as before. *)
Theorem changeRole_then_lookup auth ctx target role w p r w' :
  updatesMemberRole auth ->
  present (activeProjectId ctx) = Some p ->
  changeRole auth ctx target role w = (inr r, w') ->
  membershipRole (tables w') p target = Some (roleString role)
  /\ forall other,
       other <> target ->
       selectMembership p other (tables w') = selectMembership p other (tables w).
Proof.
  intros Hauth Hp Hrun.
  unfold changeRole in Hrun. rewrite Hp in Hrun.
  destruct (present (userId ctx)) as [u|]; [|discriminate].
  unfold bind, callAuth, ret in Hrun.
  destruct (validateRoleChange p target (roleString role) u w)
    as [[e|[]] w1] eqn:Hv; [discriminate|].
  apply validateRoleChange_passed in Hv.
  destruct Hv as (-> & rc & rt & _ & _ & Hrt & _).
  specialize (Hauth p target role (tables w)).
  destruct (auth (UpdateMemberRole p target role) (tables w)) as [reply t'].
  injection Hrun as _ <-. simpl in *. split.
  - unfold membershipRole.
    now rewrite (lookup_after_update_target _ _ _ _ _ _ Hauth Hrt).
  - intros other Hne. now apply (lookup_after_update_other _ _ _ _ _ _ Hauth).
Qed.

Lemma changeRole_then_lookup_witness :
  let w' := afterCall referenceAuth (UpdateMemberRole "acme" "cid" RAdmin) acmeTeam in
  membershipRole (tables w') "acme" "cid" = Some "admin"
  /\ forall other,
       other <> "cid" ->
       selectMembership "acme" other (tables w')
       = selectMembership "acme" other (tables acmeTeam).
Proof.
  intros w'.
  apply (changeRole_then_lookup
           referenceAuth (ctxOf "bob" "admin") "cid" RAdmin acmeTeam "acme"
           (mkSuccess true) w').
  - exact referenceAuth_updatesMemberRole.
  - reflexivity.
  - reflexivity.
Defined.

(** X17. After a removal that goes through, with a provider that removes
    the row as asked, the target has no membership in the project any more
    (a second removal fails), and the membership of every other user reads
    as before. *)
Theorem remove_then_lookup auth ctx target w p r w' :
  removesMember auth ->
  present (activeProjectId ctx) = Some p ->
  remove auth ctx target w = (inr r, w') ->
  selectMembership p target (tables w') = None
  /\ (forall other,
        other <> target ->
        selectMembership p other (tables w') = selectMembership p other (tables w))
  /\ rejected (remove auth ctx target) w'.
Proof.
  intros Hauth Hp Hrun.
  unfold remove in Hrun. rewrite Hp in Hrun.
  destruct (present (userId ctx)) as [u|] eqn:Hu; [|discriminate].
  unfold bind, callAuth, ret in Hrun.
  destruct (validateMemberRemoval p target u w)
    as [[e|[]] w1] eqn:Hv; [discriminate|].
  apply validateMemberRemoval_passed in Hv.
  destruct Hv as (-> & _).
  specialize (Hauth p target (tables w)).
  destruct (auth (RemoveMember p target) (tables w)) as [reply t'].
  injection Hrun as _ <-. simpl in *.
  destruct (lookup_after_removal p target target _ _ Hauth) as [Hgone _].
  split; [exact Hgone|]. split.
  - intros other Hne.
    now destruct (lookup_after_removal p target other _ _ Hauth) as [_ ->].
  - unfold_handler. rewrite Hp, Hu. run. simpl.
    destruct (selectMembership p u t') as [rc|]; [|eexists; reflexivity].
    destruct (pu_role rc === "member"); [eexists; reflexivity|].
    run. cbn [tables]. rewrite Hgone. eexists; reflexivity.
Qed.

Lemma remove_then_lookup_witness :
  let ann := ctxOf "ann" "owner" in
  let w' := afterCall referenceAuth (RemoveMember "acme" "cid") acmeTeam in
  selectMembership "acme" "cid" (tables w') = None
  /\ (forall other,
        other <> "cid" ->
        selectMembership "acme" other (tables w')
        = selectMembership "acme" other (tables acmeTeam))
  /\ rejected (remove referenceAuth ann "cid") w'.
Proof.
  intros ann w'.
  apply (remove_then_lookup
           referenceAuth ann "cid" acmeTeam "acme" (mkSuccess true) w').
  - exact referenceAuth_removesMember.
  - reflexivity.
  - reflexivity.
Defined.

(** X18. The counts and the lookup read the same table: a user with a
    membership in the project makes the total positive, and the owner or
    admin count when that is the role; owners and admins together never
    exceed the total; and an empty project has no membership to find. *)
Theorem counts_agree_with_lookup p t :
  let c := getProjectMemberCounts p t in
  owners c + admins c <= total c
  /\ (forall u r,
        selectMembership p u t = Some r ->
        1 <= total c
        /\ (pu_role r = "owner" -> 1 <= owners c)
        /\ (pu_role r = "admin" -> 1 <= admins c))
  /\ (total c = 0 -> forall u, selectMembership p u t = None).
Proof.
  intros c.
  assert (Hfound : forall u r,
             selectMembership p u t = Some r ->
             1 <= total c
             /\ (pu_role r = "owner" -> 1 <= owners c)
             /\ (pu_role r = "admin" -> 1 <= admins c)).
  { intros u r Hr. apply selectMembership_Some in Hr.
    destruct Hr as (Hin & Hp & _). subst c. simpl.
    split; [|split]; [|intros Hrole|intros Hrole];
      apply (filter_length_pos _ _ r Hin);
      now rewrite ?Hp, ?Hrole, ?String.eqb_refl. }
  split; [apply counts_total_bound|]. split; [exact Hfound|].
  intros Hzero u. destruct (selectMembership p u t) as [r|] eqn:Hr;
    [|reflexivity].
  destruct (Hfound u r Hr) as (Hpos & _). lia.
Qed.

Lemma counts_agree_with_lookup_witness :
  let c := getProjectMemberCounts "acme" (tables acmeTeam) in
  1 <= total c /\ 1 <= owners c
  /\ forall u, selectMembership "void" u (tables acmeTeam) = None.
Proof.
  intros c.
  destruct (counts_agree_with_lookup "acme" (tables acmeTeam))
    as (_ & Hfound & _).
  destruct (counts_agree_with_lookup "void" (tables acmeTeam))
    as (_ & _ & Hempty).
  destruct (Hfound "ann" (row "acme" "ann" "owner") eq_refl)
    as (Htotal & Howner & _).
  split; [exact Htotal|]. split; [now apply Howner|].
  now apply Hempty.
Defined.

(** Closed instances of earlier facts. *)

Lemma sole_owner_untouched_by_any_caller_witness :
  rejected (changeRole referenceAuth (ctxOf "cid" "member") "ann" RMember) acmeTeam
  /\ rejected (remove referenceAuth (ctxOf "zed" "admin") "ann") acmeTeam.
Proof.
  split.
  - apply (sole_owner_untouched_by_any_caller
             referenceAuth (ctxOf "cid" "member") acmeTeam "acme" "ann");
      [reflexivity | reflexivity | reflexivity | discriminate].
  - apply (sole_owner_untouched_by_any_caller
             referenceAuth (ctxOf "zed" "admin") acmeTeam "acme" "ann");
      reflexivity.
Defined.

Lemma invitation_management_without_context_witness :
  calls (snd (cancelInvitation referenceAuth noContext "inv_1" acmeOffice))
  = [CancelInvitation "inv_1"]
  /\ calls (snd (resendInvitation referenceAuth noContext "eve@acme.test" ROwner
                                  acmeOffice))
     = [CreateInvitation None "eve@acme.test" ROwner true].
Proof.
  apply (invitation_management_without_context
           referenceAuth noContext acmeOffice "inv_1" "eve@acme.test" ROwner);
    reflexivity.
Defined.

Lemma invite_with_unresolved_role_witness :
  calls (snd (invite referenceAuth referenceIsEmail
                     (mkCtx (Some "acme") (Some "zed") None)
                     "eve@acme.test" ROwner acmeTeam))
  = [CreateInvitation (Some "acme") "eve@acme.test" ROwner false].
Proof.
  apply (invite_with_unresolved_role
           referenceAuth referenceIsEmail
           (mkCtx (Some "acme") (Some "zed") None) acmeTeam
           "acme" "zed" "eve@acme.test" ROwner);
    [reflexivity | split; reflexivity | reflexivity].
Defined.

(** X22. [invite], [resendInvitation] and [cancelInvitation] are all or
    nothing as well: either they throw and the world is untouched, or they
    return after exactly one provider call; [cancelInvitation] then also
    deletes the rows of that id from what the provider left of the
    invitation table, and touches no other table. *)
Theorem invitation_mutations_all_or_nothing
    auth isEmail ctx email role invitationId w :
  (rejected (invite auth isEmail ctx email role) w
   \/ exists p,
        present (activeProjectId ctx) = Some p
        /\ let c := CreateInvitation (Some p) email role false in
           invite auth isEmail ctx email role w
           = (inr (mkInvited (fst (auth c (tables w)))), afterCall auth c w))
  /\ (rejected (resendInvitation auth ctx email role) w
      \/ let c := CreateInvitation (activeProjectId ctx) email role true in
         resendInvitation auth ctx email role w
         = (inr (mkInvited (fst (auth c (tables w)))), afterCall auth c w))
  /\ (rejected (cancelInvitation auth ctx invitationId) w
      \/ let t := snd (auth (CancelInvitation invitationId) (tables w)) in
         cancelInvitation auth ctx invitationId w
         = (inr (mkSuccess true),
            mkWorld
              (mkTables (projectUser t) (user t)
                 (filter (fun inv => negb (inv_id inv === invitationId))
                         (invitation t)))
              (calls w ++ [CancelInvitation invitationId]))).
Proof.
  split; [|split]; unfold_handler.
  - destruct (isEmail email); simpl; [|left; eexists; reflexivity].
    destruct (present (activeProjectId ctx)) as [p|];
      [|left; eexists; reflexivity].
    destruct (present (userId ctx)) as [u|]; [|left; eexists; reflexivity].
    destruct (roleIs ctx "member"); [left; eexists; reflexivity|].
    destruct (roleIs ctx "admin" && (roleString role === "owner"));
      [left; eexists; reflexivity|].
    right. exists p. split; [reflexivity|]. simpl.
    destruct (auth (CreateInvitation (Some p) email role false) (tables w));
      reflexivity.
  - destruct (roleIs ctx "member"); [left; eexists; reflexivity|].
    destruct (roleIs ctx "admin" && (roleString role === "owner"));
      [left; eexists; reflexivity|].
    right. simpl.
    destruct (auth (CreateInvitation (activeProjectId ctx) email role true)
                   (tables w)); reflexivity.
  - destruct (roleIs ctx "member"); [left; eexists; reflexivity|].
    right. simpl.
    destruct (auth (CancelInvitation invitationId) (tables w)); reflexivity.
Qed.
